(** * Verification of meshtastic_bot.py: mailbox, clamping, resolver, event router

    Shallow embedding of [src/meshtastic_bot.py].  Python strings are
    sequences of Unicode code points, so a string is modelled as a list of
    code points ([list Z]); [len] is [length].  Timestamps ([time.time()])
    are modelled as integers: integer-valued floats below 2^53 add and
    subtract exactly, so the comparisons of the source are the ones below.
    Within the handling of one packet the clock is read as one value [now]. *)

From stdpp Require Import base gmap list strings.
From Stdlib Require Import ZArith Lia QArith_base.

Open Scope Z_scope.

Abbreviation pystr := (list Z).

(** ASCII string literals as code-point lists; non-ASCII characters of the
    source are written with their code points. *)
Definition lit (s : string) : pystr :=
  map (fun a => Z.of_nat (Ascii.nat_of_ascii a)) (String.list_ascii_of_string s).

(** U+2026 HORIZONTAL ELLIPSIS, the truncation marker of [clamp]. *)
Definition ELLIPSIS : Z := 8230.

(** U+2753 BLACK QUESTION MARK ORNAMENT, the first character of the
    unknown-command reply. *)
Definition QMARK_ORN : Z := 10067.

Definition py_len (s : pystr) : Z := Z.of_nat (length s).

(** Characters removed by [str.strip()] and used as separators by
    [str.split()] (the code points for which [str.isspace()] holds). *)
Definition is_space (c : Z) : bool :=
  ((9 <=? c) && (c <=? 13)) || ((28 <=? c) && (c <=? 32)) || (c =? 133) || (c =? 160)
  || (c =? 5760) || ((8192 <=? c) && (c <=? 8202)) || (c =? 8232) || (c =? 8233)
  || (c =? 8239) || (c =? 8287) || (c =? 12288).

Fixpoint lstrip (s : pystr) : pystr :=
  match s with
  | c :: t => if is_space c then lstrip t else s
  | [] => []
  end.

Definition strip (s : pystr) : pystr := rev (lstrip (rev (lstrip s))).

(** [str.split()] without arguments: maximal runs of non-space characters. *)
Fixpoint split_ws_aux (cur : pystr) (s : pystr) : list pystr :=
  match s with
  | [] => match cur with [] => [] | _ => [rev cur] end
  | c :: t =>
      if is_space c
      then match cur with [] => split_ws_aux [] t | _ => rev cur :: split_ws_aux [] t end
      else split_ws_aux (c :: cur) t
  end.

Definition split_ws (s : pystr) : list pystr := split_ws_aux [] s.

(** [" ".join(xs)] *)
Fixpoint join_space (xs : list pystr) : pystr :=
  match xs with
  | [] => []
  | [x] => x
  | x :: t => x ++ [32] ++ join_space t
  end.

(** [s.startswith(p)] *)
Fixpoint starts_with (p s : pystr) : bool :=
  match p, s with
  | [], _ => true
  | c :: p', d :: s' => (c =? d) && starts_with p' s'
  | _ :: _, [] => false
  end.

(** ** clamp (lines 48-51)
<<
def clamp(s: str, n: int) -> str:
    if len(s) <= n:
        return s
    return s[: max(0, n - 1)] + "…"
>> *)
Definition clamp (s : pystr) (n : Z) : pystr :=
  if py_len s <=? n then s
  else take (Z.to_nat (Z.max 0 (n - 1))) s ++ [ELLIPSIS].

(** ** Mailbox (lines 144-174) *)

Record PendingMessage := {
  created_ts : Z;
  from_display : pystr;
  text : pystr
}.

(** The dictionary [self._store]. *)
Abbreviation Store := (gmap pystr (list PendingMessage)).

(** The filter of [_purge]: [m.created_ts >= cutoff]. *)
Definition keep (cutoff : Z) (m : PendingMessage) : bool := cutoff <=? created_ts m.

(** [_purge]: every key keeps its unexpired messages; a key left with none
    is popped.  The keys are handled independently, so the iteration order
    over [list(self._store.keys())] does not matter. *)
Definition purge (ttl now : Z) (st : Store) : Store :=
  let cutoff := now - ttl in
  omap (fun msgs =>
          match List.filter (keep cutoff) msgs with
          | [] => None
          | msgs' => Some msgs'
          end) st.

(** [add]: purge, then [self._store.setdefault(dest_key, []).append(msg)]. *)
Definition mb_add (ttl now : Z) (dest_key : pystr) (msg : PendingMessage) (st : Store) : Store :=
  let st1 := purge ttl now st in
  match st1 !! dest_key with
  | Some msgs => <[dest_key := msgs ++ [msg]]> st1
  | None => <[dest_key := [msg]]> st1
  end.

(** [get_for]: purge, then a copy of [self._store.get(dest_key, [])]. *)
Definition get_for (ttl now : Z) (dest_key : pystr) (st : Store) : list PendingMessage * Store :=
  let st1 := purge ttl now st in
  (default [] (st1 !! dest_key), st1).

(** [pop_for]: purge, then [self._store.pop(dest_key, [])]. *)
Definition pop_for (ttl now : Z) (dest_key : pystr) (st : Store) : list PendingMessage * Store :=
  let st1 := purge ttl now st in
  (default [] (st1 !! dest_key), delete dest_key st1).

(** A sequence of [Mailbox.add] calls: destination key, message and the
    clock reading of the call. *)
Fixpoint run_adds (ttl : Z) (ops : list (pystr * PendingMessage * Z)) (st : Store) : Store :=
  match ops with
  | [] => st
  | (k, m, t) :: ops' => run_adds ttl ops' (mb_add ttl t k m st)
  end.

(** The messages of [ops] addressed to [k], in call order. *)
Definition added_for (k : pystr) (ops : list (pystr * PendingMessage * Z)) : list PendingMessage :=
  map (fun op => snd (fst op)) (List.filter (fun op => bool_decide (fst (fst op) = k)) ops).

(** ** Number formatting *)

(** Digits of a non-negative integer in base [b] (with [0] written "0");
    [Z.log2 n + 1] is enough fuel for any base of at least 2. *)
Fixpoint digits_aux (b : Z) (fuel : nat) (n : Z) (acc : list Z) : list Z :=
  match fuel with
  | O => acc
  | S f => if n =? 0 then acc else digits_aux b f (n / b) (n mod b :: acc)
  end.

Definition digits (b n : Z) : list Z :=
  match digits_aux b (S (Z.to_nat (Z.log2 n))) n [] with
  | [] => [0]
  | ds => ds
  end.

(** Lower-case digit characters, as Python prints them. *)
Definition digit_char (d : Z) : Z := if d <? 10 then 48 + d else 87 + d.

(** [f"{n}"] for an int. *)
Definition py_int_str (n : Z) : pystr :=
  (if n <? 0 then [45] else []) ++ map digit_char (digits 10 (Z.abs n)).

(** [f"!{n:08x}"]: lower-case hex, zero-padded after the sign to width 8. *)
Definition fmt_node_id (n : Z) : pystr :=
  let sign := if n <? 0 then [45] else [] in
  let body := map digit_char (digits 16 (Z.abs n)) in
  lit "!" ++ sign ++ replicate (8 - length sign - length body) 48 ++ body.

(** [int(x)] for a float [x], given by its exact value as a rational:
    truncation toward zero. *)
Definition float_int (x : Q) : Z := Z.quot (Qnum x) (Zpos (Qden x)).

(** ** format_duration (lines 53-66).  The argument is a float (an age
    [now_ts() - m.created_ts]), given by its value; the first line of the
    function truncates it with [int]. *)
Definition format_duration (seconds : Q) : pystr :=
  let seconds := float_int seconds in
  let days := seconds / 86400 in
  let seconds := seconds mod 86400 in
  let hours := seconds / 3600 in
  let seconds := seconds mod 3600 in
  let minutes := seconds / 60 in
  let seconds := seconds mod 60 in
  let parts :=
    (if days =? 0 then [] else [py_int_str days ++ lit "d"]) ++
    (if hours =? 0 then [] else [py_int_str hours ++ lit "h"]) ++
    (if minutes =? 0 then [] else [py_int_str minutes ++ lit "m"]) ++
    [py_int_str seconds ++ lit "s"] in
  join_space parts.

(** ** Python values found in packets

    A packet is a dict of JSON-like values.  [VOther] stands for any other
    object (a float, a dict, ...), given by its truth value, its [int(v)]
    (None when [int] raises) and its [str(v)].  A bool behaves as the int
    0 or 1 everywhere the router uses it, so it is a [VInt]. *)
Inductive pyval :=
| VNone
| VInt (z : Z)
| VStr (s : pystr)
| VOther (truthy : bool) (as_int : option Z) (as_str : pystr).

(** [bool(v)] for a value read with [dict.get] (None when missing). *)
Definition truthy (v : option pyval) : bool :=
  match v with
  | None | Some VNone => false
  | Some (VInt z) => negb (z =? 0)
  | Some (VStr s) => negb (bool_decide (s = []))
  | Some (VOther t _ _) => t
  end.

(** [a or b] on values read with [dict.get]. *)
Definition py_or {A} (truth : option A -> bool) (a b : option A) : option A :=
  if truth a then a else b.

(** [bool(s)] for an optional string. *)
Definition str_truthy (s : option pystr) : bool :=
  match s with Some (_ :: _) => true | _ => false end.

(** ** Node directory: [self.iface.nodes]

    A dict from node key to node dict, in insertion order.  The fields the
    code reads are [user.id], [user.longName] and [user.shortName] (strings,
    as the transport fills them); [nv_other] says whether the node dict
    has other entries, which decides its truth value. *)
Record UserInfo := {
  u_id : option pystr;
  u_longName : option pystr;
  u_shortName : option pystr
}.

Record NodeVal := {
  nv_user : option UserInfo;
  nv_other : bool
}.

Abbreviation Nodes := (list (pystr * NodeVal)).

Definition node_truthy (n : NodeVal) : bool :=
  match nv_user n with Some _ => true | None => nv_other n end.

(** [safe_get(v, ["user", f])] *)
Definition user_field (f : UserInfo -> option pystr) (n : NodeVal) : option pystr :=
  match nv_user n with Some u => f u | None => None end.

(** [nodes.get(key)] *)
Fixpoint dict_get {V} (d : list (pystr * V)) (key : pystr) : option V :=
  match d with
  | [] => None
  | (k, v) :: t => if bool_decide (k = key) then Some v else dict_get t key
  end.

(** ** lookup_node_name (lines 300-316) *)
Definition lookup_node_name (nodes : Nodes) (node_key : pystr) : option pystr :=
  let n := match dict_get nodes node_key with
           | Some v => if node_truthy v then Some v else None
           | None => None
           end in
  let n := match n with
           | Some v => Some v
           | None =>
               option_map snd
                 (List.find (fun kv => bool_decide (user_field u_id (snd kv) = Some node_key)) nodes)
           end in
  match n with
  | None => None
  | Some v =>
      py_or str_truthy (user_field u_shortName v) (user_field u_longName v)
  end.


(** ** Packets

    The fields of the packet dict the router reads.  [decoded] and [rx]
    are dicts when present; a field absent from its dict is [None].
    [rxSnr] and [rxRssi] are only read by the ping handler. *)
Record Decoded := {
  d_channel : option pyval;
  d_channelIndex : option pyval;
  d_text : option pyval
}.

Record Packet := {
  p_channel : option pyval;
  p_decoded : option Decoded;
  p_rx_channel : option pyval;
  p_fromId : option pyval;
  p_from : option pyval;
  p_rxSnr : option pyval;
  p_rxRssi : option pyval
}.

(** ** The runtime services the router calls

    [py_lower] is [str.lower()] (Unicode case mapping, with its context
    rules); [int_of_pystr] is [int(s)] on a string, None when it raises
    ValueError; [builtin_reply c packet sender_key args] is the single
    text that the built-in handler [c] among help, ping, whoami, nodes,
    uptime, weather and air passes to [send_channel] (or, when [fetch_weather]
    raises, the error text of the [except] clauses).  Those seven
    handlers read the radio, the clock, /proc/uptime or the weather service
    and call [send_channel] exactly once; they touch no other bot state. *)
Inductive Builtin := CHelp | CPing | CWhoami | CNodes | CUptime | CWeather | CAir.

(** [str.lower()] restricted to its effect on ASCII letters; on a string
    of ASCII characters it is Python's [str.lower()].  Used to run the
    model on concrete ASCII inputs. *)
Definition ascii_lower (s : pystr) : pystr :=
  map (fun c => if (65 <=? c) && (c <=? 90) then c + 32 else c) s.

Section Runtime.

Variable py_lower : pystr -> pystr.
Variable int_of_pystr : pystr -> option Z.
Variable builtin_reply : Builtin -> Packet -> pystr -> list pystr -> pystr.

(** [re.fullmatch(r"![0-9a-fA-F]{8}", token)] *)
Definition is_hex_char (c : Z) : bool :=
  ((48 <=? c) && (c <=? 57)) || ((97 <=? c) && (c <=? 102)) || ((65 <=? c) && (c <=? 70)).

Definition is_hex_id (tok : pystr) : bool :=
  match tok with
  | c :: rest => (c =? 33) && (length rest =? 8)%nat && forallb is_hex_char rest
  | [] => false
  end.

(** The loop of [resolve_target] over the directory (lines 327-331). *)
Fixpoint resolve_scan (token_l : pystr) (nodes : Nodes) : option pystr * option pystr :=
  match nodes with
  | [] => (None, None)
  | (k, v) :: t =>
      let long_name := strip (default [] (user_field u_longName v)) in
      let short_name := strip (default [] (user_field u_shortName v)) in
      if bool_decide (py_lower long_name = token_l) || bool_decide (py_lower short_name = token_l)
      then (Some k, py_or str_truthy (Some short_name) (py_or str_truthy (Some long_name) None))
      else resolve_scan token_l t
  end.

(** ** resolve_target (lines 318-333) *)
Definition resolve_target (nodes : Nodes) (token : pystr) : option pystr * option pystr :=
  let token := strip token in
  if is_hex_id token
  then (Some (py_lower token), lookup_node_name nodes (py_lower token))
  else resolve_scan (py_lower token) nodes.


(** [int(v)] *)
Definition py_int (v : pyval) : option Z :=
  match v with
  | VNone => None
  | VInt z => Some z
  | VStr s => int_of_pystr s
  | VOther _ i _ => i
  end.

(** ** packet_channel_index (lines 335-343): the first of the paths
    channel, decoded.channel, decoded.channelIndex, rx.channel whose value
    is not None and converts with [int]. *)
Fixpoint first_int (vs : list (option pyval)) : option Z :=
  match vs with
  | [] => None
  | None :: t | Some VNone :: t => first_int t
  | Some v :: t => match py_int v with Some z => Some z | None => first_int t end
  end.

Definition decoded_field (f : Decoded -> option pyval) (p : Packet) : option pyval :=
  match p_decoded p with Some d => f d | None => None end.

Definition packet_channel_index (p : Packet) : option Z :=
  first_int [p_channel p; decoded_field d_channel p; decoded_field d_channelIndex p; p_rx_channel p].

(** ** Configuration and bot state *)

(** The fields of [Config] the router reads (the device and the weather
    settings are only used by the transport and [builtin_reply]). *)
Record Config := {
  channel_index : Z;
  command_prefix : pystr;
  max_reply_len : Z;
  mailbox_ttl_seconds : Z
}.

(** Session state, the [bot.state] dictionary that the plugin handlers
    [cmd_stats] (plugins/fun.py) and [cmd_seen] (plugins/diagnostics.py)
    read: [state["seen"]] and [state["counters"]["messages_seen"]].
    [MeshBot] itself never creates or writes such a dictionary; the model
    carries it to observe what the router does to it. *)
Record Session := {
  seen : gmap pystr Z;
  messages_seen : Z
}.

(** The mutable state of a [MeshBot]: the mailbox store, the session state
    and the texts handed to [iface.sendText] so far, oldest first. *)
Record Bot := {
  mailbox : Store;
  session : Session;
  outbox : list pystr
}.

Definition set_mailbox (st : Store) (b : Bot) : Bot :=
  {| mailbox := st; session := session b; outbox := outbox b |}.

(** ** send_channel (lines 296-298) *)
Definition send_channel (cfg : Config) (t : pystr) (b : Bot) : Bot :=
  {| mailbox := mailbox b; session := session b;
     outbox := outbox b ++ [clamp t (max_reply_len cfg)] |}.

(** [sender_key = packet.get("fromId") or packet.get("from")], then an int
    becomes [f"!{sender_key:08x}"] and any other non-None value [str(...)];
    None stays None (lines 445-448 and 484-487). *)
Definition sender_key_of (p : Packet) : option pystr :=
  match py_or truthy (p_fromId p) (p_from p) with
  | None | Some VNone => None
  | Some (VInt n) => Some (fmt_node_id n)
  | Some (VStr s) => Some s
  | Some (VOther _ _ s) => Some s
  end.

(** The key of [maybe_deliver_mailbox]: [if not sender_key: return]. *)
Definition delivery_key (p : Packet) : option pystr :=
  match sender_key_of p with
  | Some ((_ :: _) as k) => Some k
  | _ => None
  end.

(** The key passed to the command handlers: None becomes "unknown". *)
Definition dispatch_key (p : Packet) : pystr :=
  match sender_key_of p with Some k => k | None => lit "unknown" end.

(** ** maybe_deliver_mailbox (lines 483-498) *)
Definition delivery_text (dest_name : pystr) (now : Z) (m : PendingMessage) : pystr :=
  [128238] ++ lit " For " ++ dest_name ++ lit ": from " ++ from_display m ++ lit " ("
    ++ format_duration (inject_Z (now - created_ts m)) ++ lit "): " ++ text m.

Definition maybe_deliver_mailbox (cfg : Config) (nodes : Nodes) (now : Z) (p : Packet) (b : Bot) : Bot :=
  match delivery_key p with
  | None => b
  | Some k =>
      let '(pending, st) := pop_for (mailbox_ttl_seconds cfg) now k (mailbox b) in
      let b := set_mailbox st b in
      match pending with
      | [] => b
      | _ =>
          let dest_name := default k (py_or str_truthy (lookup_node_name nodes k) None) in
          fold_left (fun b m => send_channel cfg (delivery_text dest_name now m) b) pending b
      end
  end.

(** ** Commands (lines 570-610) *)

Fixpoint join_with (sep : pystr) (xs : list pystr) : pystr :=
  match xs with
  | [] => []
  | [x] => x
  | x :: t => x ++ sep ++ join_with sep t
  end.

Definition msg_usage : pystr :=
  lit "Usage: !msg <c" ++ [237] ++ lit "lov" ++ [253] ++ lit "_node|!hexid|shortName|longName> <text>".

(** [cmd_msg] *)
Definition cmd_msg (cfg : Config) (nodes : Nodes) (now : Z) (sender_key : pystr)
    (args : list pystr) (b : Bot) : Bot :=
  match args with
  | [] | [_] => send_channel cfg msg_usage b
  | target_token :: rest =>
      let message_text := strip (join_space rest) in
      match message_text with
      | [] => send_channel cfg ([10060] ++ lit " Missing message text.") b
      | _ =>
          match resolve_target nodes target_token with
          | (Some ((_ :: _) as target_key), target_name) =>
              let from_disp := lookup_node_name nodes sender_key in
              let from_display :=
                match from_disp with
                | Some ((_ :: _) as d) => d ++ lit "(" ++ sender_key ++ lit ")"
                | _ => sender_key
                end in
              let b := set_mailbox
                         (mb_add (mailbox_ttl_seconds cfg) now target_key
                            {| created_ts := now; from_display := from_display;
                               text := clamp message_text 400 |}
                            (mailbox b)) b in
              let pretty_target := default target_key (py_or str_truthy target_name None) in
              send_channel cfg
                ([9989] ++ lit " Saved to mailbox for " ++ pretty_target
                   ++ lit ". Will deliver when active on channel "
                   ++ py_int_str (channel_index cfg) ++ lit ".") b
          | _ =>
              send_channel cfg
                ([10060] ++ lit " Cannot find node '" ++ target_token
                   ++ lit "'. Try !nodes for a list.") b
          end
      end
  end.

Definition inbox_line (now : Z) (m : PendingMessage) : pystr :=
  lit "- od " ++ from_display m ++ lit " (" ++ format_duration (inject_Z (now - created_ts m))
    ++ lit "): " ++ clamp (text m) 80.

(** [cmd_inbox] *)
Definition cmd_inbox (cfg : Config) (now : Z) (sender_key : pystr) (b : Bot) : Bot :=
  let '(msgs, st) := get_for (mailbox_ttl_seconds cfg) now sender_key (mailbox b) in
  let b := set_mailbox st b in
  match msgs with
  | [] => send_channel cfg ([128237] ++ lit " Inbox: empty.") b
  | _ =>
      let lines := map (inbox_line now) (take 3 msgs) in
      let more := if (3 <? length msgs)%nat
                  then lit " (+" ++ py_int_str (Z.of_nat (length msgs) - 3) ++ lit " more)"
                  else [] in
      send_channel cfg ([128236] ++ lit " Inbox:" ++ [10] ++ join_with [10] lines ++ more) b
  end.

Definition unknown_reply (cmd : pystr) : pystr :=
  [QMARK_ORN] ++ lit " Unknown command '" ++ cmd ++ lit "'. Try !help".

(** The handler chosen by the [if]/[elif] chain of lines 458-477. *)
Inductive Handler := HBuiltin (c : Builtin) | HMsg | HInbox | HUnknown.

Definition select_handler (cmd : pystr) : Handler :=
  if bool_decide (cmd = lit "help") || bool_decide (cmd = lit "?") then HBuiltin CHelp
  else if bool_decide (cmd = lit "ping") then HBuiltin CPing
  else if bool_decide (cmd = lit "whoami") then HBuiltin CWhoami
  else if bool_decide (cmd = lit "nodes") then HBuiltin CNodes
  else if bool_decide (cmd = lit "uptime") then HBuiltin CUptime
  else if bool_decide (cmd = lit "weather") then HBuiltin CWeather
  else if bool_decide (cmd = lit "air") then HBuiltin CAir
  else if bool_decide (cmd = lit "msg") then HMsg
  else if bool_decide (cmd = lit "inbox") then HInbox
  else HUnknown.

(** ** The dispatcher: lines 445-481 of [on_receive], run on the stripped
    text once it is known to start with the command prefix. *)
Definition dispatch (cfg : Config) (nodes : Nodes) (now : Z) (packet : Packet)
    (txt : pystr) (b : Bot) : Bot :=
  let sender_key := dispatch_key packet in
  let cmdline := strip (drop (length (command_prefix cfg)) txt) in
  match split_ws cmdline with
  | [] => b
  | part0 :: args =>
      let cmd := py_lower part0 in
      match select_handler cmd with
      | HBuiltin c => send_channel cfg (builtin_reply c packet sender_key args) b
      | HMsg => cmd_msg cfg nodes now sender_key args b
      | HInbox => cmd_inbox cfg now sender_key b
      | HUnknown => send_channel cfg (unknown_reply cmd) b
      end
  end.

(** ** on_receive (lines 424-481).  [None] stands for a [packet] argument
    that is not a dict. *)
Definition on_receive (cfg : Config) (nodes : Nodes) (now : Z) (packet : option Packet)
    (b : Bot) : Bot :=
  match packet with
  | None => b
  | Some p =>
      let txt := decoded_field d_text p in
      if bool_decide (packet_channel_index p = Some (channel_index cfg)) then
        let b := maybe_deliver_mailbox cfg nodes now p b in
        match txt with
        | Some (VStr t) =>
            match strip t with
            | [] => b
            | t' => if starts_with (command_prefix cfg) t'
                    then dispatch cfg nodes now p t' b
                    else b
            end
        | _ => b
        end
      else b
  end.

End Runtime.

(** ** The PubSub hotfix [_sendMessage_compat] (lines 19-26)

    The topic is [Some s] when it is a [str] and [None] otherwise; the
    keyword arguments are a map from names to values.  The result is the
    topic and keyword arguments handed on to the original [sendMessage]. *)
Definition _sendMessage_compat {V} (topicName : option pystr) (msgData : gmap pystr V)
    : option pystr * gmap pystr V :=
  match topicName with
  | Some t =>
      if starts_with (lit "meshtastic.") t then
        match msgData !! lit "interface", msgData !! lit "iface" with
        | Some v, None => (topicName, <[lit "iface" := v]> (delete (lit "interface") msgData))
        | _, _ => (topicName, msgData)
        end
      else (topicName, msgData)
  | None => (topicName, msgData)
  end.

(** ** safe_get (lines 68-74) over JSON-like values: a dict (its entries
    in insertion order) or any other value. *)
#[warnings="-register-all"]
Inductive jv :=
| JDict (entries : list (pystr * jv))
| JVal (v : pyval).

Fixpoint safe_get (d : jv) (path : list pystr) (default : jv) : jv :=
  match path with
  | [] => d
  | p :: rest =>
      match d with
      | JDict entries =>
          match dict_get entries p with
          | Some cur => safe_get cur rest default
          | None => default
          end
      | JVal _ => default
      end
  end.

(** ** _fmt_age of plugins/diagnostics.py (lines 9-22), used by [cmd_seen]
    on the float age [time.time() - float(ts)], given by its value; the
    first line truncates it with [int]. *)
Definition _fmt_age (seconds : Q) : pystr :=
  let seconds := float_int seconds in
  if seconds <? 60 then py_int_str seconds ++ lit "s" else
  let minutes := seconds / 60 in
  if minutes <? 60 then py_int_str minutes ++ lit "m" else
  let hours := minutes / 60 in
  let minutes := minutes mod 60 in
  if hours <? 24 then py_int_str hours ++ lit "h " ++ py_int_str minutes ++ lit "m" else
  let days := hours / 24 in
  let hours := hours mod 24 in
  py_int_str days ++ lit "d " ++ py_int_str hours ++ lit "h".

(** ** Properties of strings and keys used in the statements *)

(** [needle in hay] for strings. *)
Fixpoint contains (needle hay : pystr) : bool :=
  starts_with needle hay ||
  match hay with [] => false | _ :: t => contains needle t end.

Definition is_lower_hex_char (c : Z) : bool :=
  ((48 <=? c) && (c <=? 57)) || ((97 <=? c) && (c <=? 102)).

(** The canonical node key: "!" followed by 8 lower-case hex digits. *)
Definition is_canonical_key (k : pystr) : bool :=
  match k with
  | c :: rest => (c =? 33) && (length rest =? 8)%nat && forallb is_lower_hex_char rest
  | [] => false
  end.

(** ** Readers of printed values, used to state round trips *)

(** The value of a lower-case hex digit character. *)
Definition hex_val (c : Z) : Z := if c <=? 57 then c - 48 else c - 87.

(** The node number written in a key "!xxxxxxxx". *)
Definition parse_node_id (k : pystr) : Z :=
  match k with
  | _ :: ds => fold_left (fun a c => a * 16 + hex_val c) ds 0
  | [] => 0
  end.

(** Reading a [format_duration] text: a running total and the number being
    read; a unit letter d, h, m or s adds that number times its unit. *)
Definition dur_step (st : Z * Z) (c : Z) : Z * Z :=
  let '(tot, cur) := st in
  if (48 <=? c) && (c <=? 57) then (tot, cur * 10 + (c - 48))
  else if c =? 100 then (tot + cur * 86400, 0)
  else if c =? 104 then (tot + cur * 3600, 0)
  else if c =? 109 then (tot + cur * 60, 0)
  else if c =? 115 then (tot + cur, 0)
  else (tot, cur).

Definition parse_duration (s : pystr) : Z := fst (fold_left dur_step s (0, 0)).

(** ** Concrete inputs *)

(** A message exactly [ttl] seconds old, used below. *)
Definition msg_at (t : Z) : PendingMessage :=
  {| created_ts := t; from_display := lit "!a1b2c3d4"; text := lit "hello" |}.

(** Every message of a store has a text of at most 400 characters. *)
Definition texts_bounded (st : Store) : Prop :=
  forall k ms m, st !! k = Some ms -> In m ms -> py_len (text m) <= 400.

(** A configuration with the defaults of [load_config] and channel 1. *)
Definition cfg_default : Config :=
  {| channel_index := 1; command_prefix := lit "!"; max_reply_len := 220;
     mailbox_ttl_seconds := 7 * 24 * 3600 |}.

(** A freshly started bot. *)
Definition bot_fresh : Bot :=
  {| mailbox := ∅; session := {| seen := ∅; messages_seen := 0 |}; outbox := [] |}.

(** Built-in replies for runs of the model (their texts do not matter). *)
Definition reply_stub (c : Builtin) (p : Packet) (k : pystr) (args : list pystr) : pystr :=
  lit "ok".

(** A text packet on channel [ch] from node number [from] (no [fromId]). *)
Definition text_packet (ch from : Z) (t : pystr) : Packet :=
  {| p_channel := Some (VInt ch);
     p_decoded := Some {| d_channel := None; d_channelIndex := None; d_text := Some (VStr t) |};
     p_rx_channel := None; p_fromId := None; p_from := Some (VInt from);
     p_rxSnr := None; p_rxRssi := None |}.

(** A directory entry with a short and a long name and no user id. *)
Definition node_named (short long : string) : NodeVal :=
  {| nv_user := Some {| u_id := None; u_longName := Some (lit long);
                        u_shortName := Some (lit short) |};
     nv_other := false |}.

(** * Mailbox: expiry and delivery *)

Section MailboxFacts.

Variable ttl : Z.

(** Purging a key filters its list; an emptied key is gone. *)
Lemma lookup_purge now st k :
  purge ttl now st !! k =
    match st !! k with
    | Some msgs => match List.filter (keep (now - ttl)) msgs with [] => None | l => Some l end
    | None => None
    end.
Proof. unfold purge. rewrite lookup_omap. by destruct (st !! k). Qed.

Lemma purge_default now st k :
  default [] (purge ttl now st !! k) = List.filter (keep (now - ttl)) (default [] (st !! k)).
Proof.
  rewrite lookup_purge. destruct (st !! k) as [msgs|]; [|done]. simpl.
  by destruct (List.filter (keep (now - ttl)) msgs).
Qed.

Lemma purge_no_empty now st k : purge ttl now st !! k <> Some [].
Proof.
  rewrite lookup_purge. destruct (st !! k) as [msgs|]; [|done].
  by destruct (List.filter (keep (now - ttl)) msgs).
Qed.

Lemma purge_kept now st k msgs m :
  purge ttl now st !! k = Some msgs -> In m msgs -> now - created_ts m <= ttl.
Proof.
  rewrite lookup_purge. destruct (st !! k) as [l|]; [|done].
  intros Hf Hin.
  assert (Hin' : In m (List.filter (keep (now - ttl)) l)).
  { destruct (List.filter (keep (now - ttl)) l); by inversion Hf; subst. }
  apply List.filter_In in Hin' as [_ Hk]. unfold keep in Hk. lia.
Qed.

Lemma purge_returned now st k m :
  In m (default [] (purge ttl now st !! k)) -> now - created_ts m <= ttl.
Proof.
  destruct (purge ttl now st !! k) as [msgs|] eqn:E; simpl; [|done].
  intros Hin. by eapply purge_kept.
Qed.

Lemma mb_add_default now k' m st k :
  default [] (mb_add ttl now k' m st !! k) =
    default [] (purge ttl now st !! k) ++ (if bool_decide (k' = k) then [m] else []).
Proof.
  unfold mb_add. case_bool_decide as Hk.
  - subst. destruct (purge ttl now st !! k) eqn:E; by rewrite lookup_insert_eq.
  - rewrite app_nil_r.
    destruct (purge ttl now st !! k'); by rewrite lookup_insert_ne.
Qed.

Lemma mb_add_no_empty now k' m st k : mb_add ttl now k' m st !! k <> Some [].
Proof.
  unfold mb_add. destruct (decide (k' = k)) as [<-|Hne].
  - destruct (purge ttl now st !! k') as [l|]; rewrite lookup_insert_eq; [by destruct l|done].
  - destruct (purge ttl now st !! k');
      rewrite lookup_insert_ne by done; apply purge_no_empty.
Qed.

(** A filter with the later cutoff absorbs one with an earlier cutoff. *)
Lemma filter_keep_mono c1 c2 l :
  c1 <= c2 -> List.filter (keep c2) (List.filter (keep c1) l) = List.filter (keep c2) l.
Proof.
  intros Hc. induction l as [|m l IH]; [done|]. simpl.
  destruct (keep c1 m) eqn:E1; simpl.
  - destruct (keep c2 m); by rewrite IH.
  - unfold keep in *. destruct (c2 <=? created_ts m) eqn:E2; [lia|done].
Qed.

End MailboxFacts.

Lemma run_adds_filter ttl ops st k t :
  Forall (fun op => snd op <= t) ops ->
  List.filter (keep (t - ttl)) (default [] (run_adds ttl ops st !! k)) =
    List.filter (keep (t - ttl)) (default [] (st !! k)) ++ List.filter (keep (t - ttl)) (added_for k ops).
Proof.
  revert st. induction ops as [|[[k' m] ti] ops IH]; intros st Hops.
  - simpl. by rewrite app_nil_r.
  - inversion Hops as [|? ? Hti Hrest]; subst. simpl in Hti |- *.
    rewrite IH by done. rewrite mb_add_default, purge_default.
    rewrite List.filter_app, filter_keep_mono by lia.
    unfold added_for. simpl. case_bool_decide; simpl.
    + rewrite <- app_assoc. f_equal. by destruct (keep (t - ttl) m).
    + by rewrite app_nil_r.
Qed.

(** Every message of [msgs] older than [ttl]: the purge filter drops all. *)
Lemma filter_keep_expired ttl now (msgs : list PendingMessage) :
  (forall m, In m msgs -> ttl < now - created_ts m) ->
  List.filter (keep (now - ttl)) msgs = [].
Proof.
  induction msgs as [|m msgs IH]; intros Hall; [done|]. simpl.
  unfold keep at 1. destruct (now - ttl <=? created_ts m) eqn:E.
  - specialize (Hall m (or_introl eq_refl)). lia.
  - apply IH. intros m' Hin. apply Hall. by right.
Qed.

(** C1 (counterexample): with [ttl_seconds = 10], a message created at 0
    is still returned by [get_for] and [pop_for] at time 10, when
    [ttl_seconds] have elapsed: [_purge] keeps [created_ts >= now - ttl_seconds]. *)
Lemma C1_ttl_boundary_counterexample :
  let st : Store := {[ lit "!11223344" := [msg_at 0] ]} in
  10 - created_ts (msg_at 0) >= 10 /\
  In (msg_at 0) (fst (get_for 10 10 (lit "!11223344") st)) /\
  In (msg_at 0) (fst (pop_for 10 10 (lit "!11223344") st)).
Proof.
  split; [simpl; lia|].
  split; vm_compute; left; reflexivity.
Qed.

(** C1 (amended): a [get_for] or [pop_for] call at time [now] returns no
    message that is more than [ttl] seconds old; after [add], [get_for] or
    [pop_for] no key maps to an empty list; after [pop_for] the key is
    absent, and after [get_for] it is absent when every message under it is
    more than [ttl] seconds old. *)
Theorem C1_mailbox_ttl_invariant (ttl now : Z) (k : pystr) (st : Store) :
  (forall m, ttl < now - created_ts m -> ~ In m (fst (get_for ttl now k st))) /\
  (forall m, ttl < now - created_ts m -> ~ In m (fst (pop_for ttl now k st))) /\
  (forall k' k'' m, mb_add ttl now k'' m st !! k' <> Some []) /\
  (forall k', snd (get_for ttl now k st) !! k' <> Some []) /\
  (forall k', snd (pop_for ttl now k st) !! k' <> Some []) /\
  snd (pop_for ttl now k st) !! k = None /\
  ((forall m, In m (default [] (st !! k)) -> ttl < now - created_ts m) ->
   snd (get_for ttl now k st) !! k = None).
Proof.
  unfold get_for, pop_for; simpl.
  split; [|split; [|split; [|split; [|split; [|split]]]]].
  - intros m Hm Hin. apply purge_returned in Hin. lia.
  - intros m Hm Hin. apply purge_returned in Hin. lia.
  - intros. apply mb_add_no_empty.
  - intros. apply purge_no_empty.
  - intros k'. destruct (decide (k = k')) as [<-|Hne].
    + by rewrite lookup_delete_eq.
    + rewrite lookup_delete_ne by done. apply purge_no_empty.
  - apply lookup_delete_eq.
  - intros Hold. rewrite lookup_purge.
    destruct (st !! k) as [msgs|]; [|done]. simpl in Hold.
    by rewrite filter_keep_expired.
Qed.

(** C2: starting from a store with nothing under [k], a sequence of [add]
    calls at clock readings no later than [t], then [pop_for k] at [t],
    returns the messages added for [k] that are unexpired at [t], in call
    order; a second [pop_for k] right after (at any time) returns nothing. *)
Theorem C2_pop_for_exactly_once (ttl t t' : Z) (k : pystr)
    (ops : list (pystr * PendingMessage * Z)) (st : Store) :
  st !! k = None ->
  Forall (fun op => snd op <= t) ops ->
  let '(r, st') := pop_for ttl t k (run_adds ttl ops st) in
  r = List.filter (keep (t - ttl)) (added_for k ops) /\
  fst (pop_for ttl t' k st') = [].
Proof.
  intros Hk Hops. unfold pop_for at 1. simpl. split.
  - rewrite purge_default, run_adds_filter by done. by rewrite Hk.
  - unfold pop_for. simpl. by rewrite lookup_purge, lookup_delete_eq.
Qed.

(** C2 witness: three adds at times 0, 5 and 20 (two for [!11223344]),
    then [pop_for] at time 20 with [ttl = 10]. *)
Lemma C2_pop_for_exactly_once_witness :
  let ops := [(lit "!11223344", msg_at 0, 0); (lit "!55667788", msg_at 5, 5);
              (lit "!11223344", msg_at 20, 20)] in
  (∅ : Store) !! lit "!11223344" = None /\
  Forall (fun op : pystr * PendingMessage * Z => snd op <= 20) ops /\
  (let '(r, st') := pop_for 10 20 (lit "!11223344") (run_adds 10 ops ∅) in
   r = List.filter (keep (20 - 10)) (added_for (lit "!11223344") ops) /\
   fst (pop_for 10 25 (lit "!11223344") st') = []).
Proof.
  cbv zeta. split; [reflexivity|]. split.
  - repeat constructor; simpl; lia.
  - apply (C2_pop_for_exactly_once 10 20 25 (lit "!11223344")); [reflexivity|].
    repeat constructor; simpl; lia.
Defined.

(** * Clamping *)

Lemma clamp_long_length (s : pystr) (n : Z) :
  1 <= n < py_len s ->
  py_len (clamp s n) = n /\ last (clamp s n) = Some ELLIPSIS /\
  clamp s n = take (Z.to_nat (n - 1)) s ++ [ELLIPSIS].
Proof.
  unfold clamp, py_len. intros Hn.
  destruct (Z.of_nat (length s) <=? n) eqn:E; [lia|].
  rewrite Z.max_r by lia.
  split; [|split; [apply last_snoc|done]].
  rewrite length_app, length_take. simpl. lia.
Qed.

Lemma clamp_short (s : pystr) (n : Z) : py_len s <= n -> clamp s n = s.
Proof.
  unfold clamp. intros H. by rewrite (proj2 (Z.leb_le _ _) H).
Qed.

Lemma clamp_le (s : pystr) (n : Z) : 1 <= n -> py_len (clamp s n) <= n.
Proof.
  intros Hn. destruct (Z.le_gt_cases (py_len s) n) as [H|H].
  - by rewrite clamp_short.
  - destruct (clamp_long_length s n) as [-> _]; lia.
Qed.

(** C6 (counterexample): with a configured limit of 0, [clamp] turns the
    5-character reply "hello" into the 1-character string "…", not a
    string of length 0. *)
Lemma C6_clamp_zero_limit_counterexample :
  clamp (lit "hello") 0 = [ELLIPSIS] /\ py_len (clamp (lit "hello") 0) <> 0.
Proof. split; [reflexivity|]. vm_compute. discriminate. Qed.

(** C6 (amended): [send_channel] sends [clamp text max_reply_len]; a text no
    longer than the limit is unchanged; for a limit [n >= 1] a longer text
    becomes its first [n - 1] characters followed by "…", exactly [n]
    characters long; for a limit [n <= 0] a non-empty text becomes "…". *)
Theorem C6_clamp_spec (cfg : Config) (t : pystr) (b : Bot) :
  outbox (send_channel cfg t b) = outbox b ++ [clamp t (max_reply_len cfg)] /\
  (forall (s : pystr) (n : Z), py_len s <= n -> clamp s n = s) /\
  (forall (s : pystr) (n : Z), 1 <= n < py_len s ->
     py_len (clamp s n) = n /\ last (clamp s n) = Some ELLIPSIS /\
     clamp s n = take (Z.to_nat (n - 1)) s ++ [ELLIPSIS]) /\
  (forall (s : pystr) (n : Z), n <= 0 < py_len s -> clamp s n = [ELLIPSIS]).
Proof.
  split; [done|]. split; [apply clamp_short|]. split; [apply clamp_long_length|].
  intros s n Hn. unfold clamp.
  destruct (py_len s <=? n) eqn:E; [lia|].
  by rewrite Z.max_l by lia.
Qed.

(** * Stored messages *)

Lemma purge_in (ttl now : Z) (st : Store) (k : pystr) (ms : list PendingMessage) (x : PendingMessage) :
  purge ttl now st !! k = Some ms -> In x ms ->
  exists ms0, st !! k = Some ms0 /\ In x ms0.
Proof.
  rewrite lookup_purge. destruct (st !! k) as [ms0|]; [|done].
  intros Hf Hin. exists ms0. split; [done|].
  assert (Hin' : In x (List.filter (keep (now - ttl)) ms0)).
  { destruct (List.filter (keep (now - ttl)) ms0); by inversion Hf; subst. }
  by apply List.filter_In in Hin' as [? _].
Qed.

Lemma mb_add_in (ttl now : Z) (k : pystr) (m : PendingMessage) (st : Store) (k' : pystr) (ms : list PendingMessage) (x : PendingMessage) :
  mb_add ttl now k m st !! k' = Some ms -> In x ms ->
  x = m \/ exists ms0, st !! k' = Some ms0 /\ In x ms0.
Proof.
  unfold mb_add. intros Hl Hin.
  destruct (decide (k = k')) as [<-|Hne].
  - destruct (purge ttl now st !! k) as [ms1|] eqn:E;
      rewrite lookup_insert_eq in Hl; inversion Hl; subst.
    + apply in_app_or in Hin as [Hin|[<-|[]]]; [|by left].
      right. by eapply purge_in.
    + destruct Hin as [<-|[]]. by left.
  - right. destruct (purge ttl now st !! k);
      rewrite lookup_insert_ne in Hl by done; by eapply purge_in.
Qed.

Lemma send_channel_mailbox cfg t b : mailbox (send_channel cfg t b) = mailbox b.
Proof. done. Qed.

(** C10: [cmd_msg] either leaves the mailbox as it is or adds one message
    whose text is [clamp(message_text, 400)], a constant limit that does
    not involve [max_reply_len]; that text has at most 400 characters, and
    ends in "…" with exactly 400 when the message text is longer.  Hence
    a mailbox whose texts have at most 400 characters keeps that bound. *)
Theorem C10_msg_text_clamped_400 (py_lower : pystr -> pystr) (cfg : Config) (nodes : Nodes)
    (now : Z) (sender_key : pystr) (args : list pystr) (b : Bot) :
  let b' := cmd_msg py_lower cfg nodes now sender_key args b in
  (mailbox b' = mailbox b \/
   exists tok rest target_key fd,
     args = tok :: rest /\
     mailbox b' = mb_add (mailbox_ttl_seconds cfg) now target_key
                   {| created_ts := now; from_display := fd;
                      text := clamp (strip (join_space rest)) 400 |} (mailbox b)) /\
  (forall s : pystr, py_len (clamp s 400) <= 400 /\
     (400 < py_len s -> py_len (clamp s 400) = 400 /\ last (clamp s 400) = Some ELLIPSIS)) /\
  (texts_bounded (mailbox b) -> texts_bounded (mailbox b')).
Proof.
  cbv zeta.
  assert (Hshape :
    mailbox (cmd_msg py_lower cfg nodes now sender_key args b) = mailbox b \/
    exists tok rest target_key fd,
      args = tok :: rest /\
      mailbox (cmd_msg py_lower cfg nodes now sender_key args b) =
        mb_add (mailbox_ttl_seconds cfg) now target_key
          {| created_ts := now; from_display := fd;
             text := clamp (strip (join_space rest)) 400 |} (mailbox b)).
  { unfold cmd_msg.
    destruct args as [|tok [|r rest]]; [by left|by left|].
    destruct (strip (join_space (r :: rest))) as [|c cs] eqn:Es; [by left|].
    destruct (resolve_target py_lower nodes tok) as [[[|c' k']|] tn]; [by left| |by left].
    right. rewrite send_channel_mailbox. simpl.
    eexists tok, (r :: rest), (c' :: k'), _. split; [done|]. by rewrite Es. }
  assert (Hclamp : forall s : pystr, py_len (clamp s 400) <= 400 /\
     (400 < py_len s -> py_len (clamp s 400) = 400 /\ last (clamp s 400) = Some ELLIPSIS)).
  { intros s. split; [by apply clamp_le|].
    intros Hs. destruct (clamp_long_length s 400) as [H1 [H2 _]]; [lia|done]. }
  split; [done|]. split; [done|].
  intros Hb k ms m Hk Hin.
  destruct Hshape as [Heq|(tok & rest & tk & fd & _ & Heq)]; rewrite Heq in Hk.
  - by eapply Hb.
  - destruct (mb_add_in _ _ _ _ _ _ _ m Hk Hin) as [->|(ms0 & Hms0 & Hin0)].
    + apply Hclamp.
    + by eapply Hb.
Qed.

(** * Node resolver *)

Lemma lstrip_nonspace (c : Z) (t : pystr) : is_space c = false -> lstrip (c :: t) = c :: t.
Proof. intros H. simpl. by rewrite H. Qed.

Lemma hex_not_space (c : Z) : is_hex_char c = true -> is_space c = false.
Proof.
  unfold is_hex_char, is_space. intros H.
  repeat (apply orb_prop in H as [H|H]); apply andb_prop in H as [H1 H2];
  apply Z.leb_le in H1; apply Z.leb_le in H2;
  repeat rewrite orb_false_iff; repeat split;
  try (apply andb_false_iff; first [left; apply Z.leb_gt; lia | right; apply Z.leb_gt; lia]);
  apply Z.eqb_neq; lia.
Qed.

(** A token matching the hex-id pattern has nothing to strip. *)
Lemma strip_hex_id (tok : pystr) : is_hex_id tok = true -> strip tok = tok.
Proof.
  destruct tok as [|c rest]; [done|]. simpl.
  intros H. apply andb_prop in H as [H Hall]. apply andb_prop in H as [Hc Hlen].
  apply Z.eqb_eq in Hc. subst c.
  unfold strip. rewrite lstrip_nonspace by reflexivity.
  simpl rev. destruct (rev rest) as [|d ds] eqn:E.
  - apply (f_equal (@length Z)) in E. rewrite length_rev in E.
    apply Nat.eqb_eq in Hlen. simpl in E. lia.
  - assert (Hd : In d rest). { apply in_rev. rewrite E. by left. }
    rewrite forallb_forall in Hall. specialize (Hall d Hd).
    simpl. rewrite (hex_not_space d Hall).
    rewrite app_comm_cons, <- E. by rewrite rev_app_distr, rev_involutive.
Qed.

(** C7: a token matching [!] followed by 8 hex digits resolves to its
    lower-cased form, whatever the directory holds (the display name is
    whatever [lookup_node_name] finds, possibly None). *)
Theorem C7_resolve_hex_id (py_lower : pystr -> pystr) (nodes : Nodes) (tok : pystr) :
  is_hex_id tok = true ->
  resolve_target py_lower nodes tok = (Some (py_lower tok), lookup_node_name nodes (py_lower tok)).
Proof.
  intros H. unfold resolve_target. rewrite strip_hex_id by done. by rewrite H.
Qed.

(** C7 witness: "!DEADbeef" against an empty directory. *)
Lemma C7_resolve_hex_id_witness :
  is_hex_id (lit "!DEADbeef") = true /\
  resolve_target ascii_lower [] (lit "!DEADbeef") = (Some (lit "!deadbeef"), None).
Proof.
  split; [reflexivity|].
  exact (C7_resolve_hex_id ascii_lower [] (lit "!DEADbeef") eq_refl).
Defined.

(** C8: a token that is not a hex id and equals no entry's long or short
    name case-insensitively (names and token compared after [strip()], a
    missing name read as "") resolves to [(None, None)]; a key that is not
    in the directory and is no entry's [user.id] has display name None.
    Both are total functions: absence is the value None. *)
Theorem C8_resolve_not_found (py_lower : pystr -> pystr) (nodes : Nodes) (tok key : pystr) :
  is_hex_id (strip tok) = false ->
  (forall k v, In (k, v) nodes ->
     py_lower (strip (default [] (user_field u_longName v))) <> py_lower (strip tok) /\
     py_lower (strip (default [] (user_field u_shortName v))) <> py_lower (strip tok)) ->
  dict_get nodes key = None ->
  (forall k v, In (k, v) nodes -> user_field u_id v <> Some key) ->
  resolve_target py_lower nodes tok = (None, None) /\ lookup_node_name nodes key = None.
Proof.
  intros Hhex Hnames Hget Hid. split.
  - unfold resolve_target. rewrite Hhex. clear Hget Hid Hhex.
    induction nodes as [|[k v] nodes IH]; [done|]. simpl.
    destruct (Hnames k v (or_introl eq_refl)) as [Hl Hs].
    rewrite !bool_decide_false by done. simpl.
    apply IH. intros k' v' Hin. apply (Hnames k' v'). by right.
  - unfold lookup_node_name. rewrite Hget.
    destruct (List.find _ nodes) as [[k v]|] eqn:E; [|done].
    apply find_some in E as [Hin Hf]. apply bool_decide_eq_true in Hf.
    by destruct (Hid k v Hin).
Qed.

(** C8 witness: "alice" against a directory holding only "Bob"/"BB". *)
Lemma C8_resolve_not_found_witness :
  let nodes : Nodes :=
    [(lit "!00000001",
      {| nv_user := Some {| u_id := Some (lit "!00000001"); u_longName := Some (lit "Bob");
                            u_shortName := Some (lit "BB") |};
         nv_other := true |})] in
  resolve_target ascii_lower nodes (lit "alice") = (None, None) /\
  lookup_node_name nodes (lit "!00000002") = None.
Proof.
  cbv zeta. apply C8_resolve_not_found.
  - reflexivity.
  - intros k v [Hkv|[]]. inversion Hkv; subst. split; vm_compute; discriminate.
  - reflexivity.
  - intros k v [Hkv|[]]. inversion Hkv; subst. vm_compute. discriminate.
Defined.

(** * Event router *)

Section Router.

Variable py_lower : pystr -> pystr.
Variable int_of_pystr : pystr -> option Z.
Variable builtin_reply : Builtin -> Packet -> pystr -> list pystr -> pystr.

Lemma send_channel_session cfg t b : session (send_channel cfg t b) = session b.
Proof. done. Qed.

Lemma fold_send_session cfg (f : PendingMessage -> pystr) ms b :
  session (fold_left (fun b m => send_channel cfg (f m) b) ms b) = session b.
Proof. revert b. induction ms as [|m ms IH]; intros b; [done|]. simpl. by rewrite IH. Qed.

Lemma maybe_deliver_session cfg nodes now p b :
  session (maybe_deliver_mailbox cfg nodes now p b) = session b.
Proof.
  unfold maybe_deliver_mailbox.
  destruct (delivery_key p) as [k|]; [|done].
  destruct (pop_for _ _ _ _) as [pending st].
  destruct pending; [done|]. by rewrite fold_send_session.
Qed.

Lemma cmd_msg_session cfg nodes now sk args b :
  session (cmd_msg py_lower cfg nodes now sk args b) = session b.
Proof.
  unfold cmd_msg.
  destruct args as [|tok [|r rest]]; [done|done|].
  destruct (strip (join_space (r :: rest))); [done|].
  by destruct (resolve_target py_lower nodes tok) as [[[|c k]|] tn].
Qed.

Lemma cmd_inbox_session cfg now sk b : session (cmd_inbox cfg now sk b) = session b.
Proof.
  unfold cmd_inbox. destruct (get_for _ _ _ _) as [msgs st]. by destruct msgs.
Qed.

Lemma dispatch_session cfg nodes now p txt b :
  session (dispatch py_lower builtin_reply cfg nodes now p txt b) = session b.
Proof.
  unfold dispatch. destruct (split_ws _) as [|part0 args]; [done|].
  destruct (select_handler (py_lower part0)).
  - done.
  - apply cmd_msg_session.
  - apply cmd_inbox_session.
  - done.
Qed.

Lemma starts_with_app (n c : pystr) : starts_with n (n ++ c) = true.
Proof. induction n as [|x n IH]; [done|]. simpl. by rewrite Z.eqb_refl. Qed.

Lemma contains_starts (n h : pystr) : starts_with n h = true -> contains n h = true.
Proof. intros H. destruct h; simpl; by rewrite H. Qed.

Lemma contains_app (n a c : pystr) : contains n (a ++ n ++ c) = true.
Proof.
  induction a as [|x a IH].
  - rewrite app_nil_l. apply contains_starts, starts_with_app.
  - simpl. rewrite IH. apply orb_true_r.
Qed.

End Router.

(** C3: a packet whose channel index, as [packet_channel_index] extracts
    it, is absent or differs from the configured channel leaves the bot
    exactly as it was: no mailbox purge or delivery, no session change, no
    reply, no dispatch. *)
Theorem C3_channel_isolation (py_lower : pystr -> pystr) (int_of_pystr : pystr -> option Z)
    (builtin_reply : Builtin -> Packet -> pystr -> list pystr -> pystr)
    (cfg : Config) (nodes : Nodes) (now : Z) (p : Packet) (b : Bot) :
  packet_channel_index int_of_pystr p <> Some (channel_index cfg) ->
  on_receive py_lower int_of_pystr builtin_reply cfg nodes now (Some p) b = b.
Proof.
  intros Hch. unfold on_receive. by rewrite bool_decide_false.
Qed.

(** C3 witness: the command "!inbox" sent on channel 0 to a bot that
    monitors channel 1. *)
Lemma C3_channel_isolation_witness :
  packet_channel_index (fun _ => None) (text_packet 0 5 (lit "!inbox")) <> Some (channel_index cfg_default) /\
  on_receive ascii_lower (fun _ => None) reply_stub cfg_default [] 0
    (Some (text_packet 0 5 (lit "!inbox"))) bot_fresh = bot_fresh.
Proof.
  split; [vm_compute; discriminate|].
  apply C3_channel_isolation. vm_compute. discriminate.
Defined.

(** C5 (counterexample): a non-command text on the monitored channel
    from node 5 leaves the session state empty: no [seen] entry for
    "!00000005", no message counted. *)
Lemma C5_no_session_update_counterexample :
  let b' := on_receive ascii_lower (fun _ => None) reply_stub cfg_default [] 100
              (Some (text_packet 1 5 (lit "hello"))) bot_fresh in
  packet_channel_index (fun _ => None) (text_packet 1 5 (lit "hello")) = Some (channel_index cfg_default) /\
  seen (session b') !! lit "!00000005" = None /\ messages_seen (session b') = 0.
Proof. vm_compute. split; [reflexivity|]. split; reflexivity. Qed.

(** C5 (amended): [on_receive] leaves the session state as it is for
    every packet: the router keeps no last-seen map or message counter. *)
Theorem C5_on_receive_keeps_session (py_lower : pystr -> pystr) (int_of_pystr : pystr -> option Z)
    (builtin_reply : Builtin -> Packet -> pystr -> list pystr -> pystr)
    (cfg : Config) (nodes : Nodes) (now : Z) (p : option Packet) (b : Bot) :
  session (on_receive py_lower int_of_pystr builtin_reply cfg nodes now p b) = session b.
Proof.
  unfold on_receive. destruct p as [p|]; [|done].
  case_bool_decide; [|done].
  destruct (decoded_field d_text p) as [[| |t|]|];
    try apply maybe_deliver_session.
  destruct (strip t) as [|c t']; [apply maybe_deliver_session|].
  destruct (starts_with _ _); [|apply maybe_deliver_session].
  rewrite dispatch_session. apply maybe_deliver_session.
Qed.

(** C9 (counterexample): with the default limit of 220, the unknown command
    "!xxx...x" (201 letters) gets exactly one reply, and that reply, clamped
    to 220 characters, no longer contains the command name. *)
Lemma C9_unknown_command_clamped_counterexample :
  let txt := lit "!" ++ repeat 120 201 in
  let b' := on_receive ascii_lower (fun _ => None) reply_stub cfg_default [] 0
              (Some (text_packet 1 5 txt)) bot_fresh in
  exists r, outbox b' = [r] /\ contains (repeat 120 201) r = false.
Proof.
  cbv zeta. eexists. split; [vm_compute; reflexivity|]. vm_compute. reflexivity.
Qed.

(** C9 (amended): dispatching a command line whose lower-cased first word
    is none of the built-in command names sends exactly one reply,
    [clamp("❓ Unknown command '<cmd>'. Try !help", max_reply_len)], runs no
    handler and leaves the mailbox and the session state as they were; the
    reply contains the command name whenever the unclamped reply fits in
    [max_reply_len]. *)
Theorem C9_unknown_command (py_lower : pystr -> pystr)
    (builtin_reply : Builtin -> Packet -> pystr -> list pystr -> pystr)
    (cfg : Config) (nodes : Nodes) (now : Z) (p : Packet) (txt : pystr) (b : Bot)
    (part0 : pystr) (args : list pystr) :
  split_ws (strip (drop (length (command_prefix cfg)) txt)) = part0 :: args ->
  select_handler (py_lower part0) = HUnknown ->
  let b' := dispatch py_lower builtin_reply cfg nodes now p txt b in
  mailbox b' = mailbox b /\ session b' = session b /\
  outbox b' = outbox b ++ [clamp (unknown_reply (py_lower part0)) (max_reply_len cfg)] /\
  (py_len (unknown_reply (py_lower part0)) <= max_reply_len cfg ->
   contains (py_lower part0) (clamp (unknown_reply (py_lower part0)) (max_reply_len cfg)) = true).
Proof.
  intros Hsplit Hsel. cbv zeta. unfold dispatch. rewrite Hsplit, Hsel.
  split; [done|]. split; [done|]. split; [done|].
  intros Hfit. rewrite clamp_short by done.
  unfold unknown_reply. rewrite app_assoc. apply contains_app.
Qed.

(** C9 witness: "!bogus" with the default configuration. *)
Lemma C9_unknown_command_witness :
  let b' := dispatch ascii_lower reply_stub cfg_default [] 0
              (text_packet 1 5 (lit "!bogus")) (lit "!bogus") bot_fresh in
  split_ws (strip (drop (length (command_prefix cfg_default)) (lit "!bogus"))) = [lit "bogus"] /\
  select_handler (ascii_lower (lit "bogus")) = HUnknown /\
  mailbox b' = mailbox bot_fresh /\ session b' = session bot_fresh /\
  outbox b' = outbox bot_fresh ++ [clamp (unknown_reply (ascii_lower (lit "bogus"))) (max_reply_len cfg_default)] /\
  (py_len (unknown_reply (ascii_lower (lit "bogus"))) <= max_reply_len cfg_default ->
   contains (ascii_lower (lit "bogus"))
     (clamp (unknown_reply (ascii_lower (lit "bogus"))) (max_reply_len cfg_default)) = true).
Proof.
  cbv zeta. split; [reflexivity|]. split; [reflexivity|].
  exact (C9_unknown_command ascii_lower reply_stub cfg_default [] 0
           (text_packet 1 5 (lit "!bogus")) (lit "!bogus") bot_fresh (lit "bogus") []
           eq_refl eq_refl).
Defined.

(** * Sender keys *)

Lemma digits_aux_hex (fuel : nat) (n : Z) (acc : list Z) (j : nat) :
  0 <= n < 16 ^ Z.of_nat j ->
  Forall (fun d => 0 <= d < 16) acc ->
  Forall (fun d => 0 <= d < 16) (digits_aux 16 fuel n acc) /\
  (length (digits_aux 16 fuel n acc) <= j + length acc)%nat.
Proof.
  revert n acc j. induction fuel as [|f IH]; intros n acc j Hn Hacc; simpl.
  - split; [done|lia].
  - destruct (n =? 0) eqn:E; [split; [done|lia]|].
    apply Z.eqb_neq in E.
    destruct j as [|j].
    + simpl in Hn. lia.
    + rewrite Nat2Z.inj_succ, Z.pow_succ_r in Hn by lia.
      assert (Hq : 0 <= n / 16 < 16 ^ Z.of_nat j).
      { split; [apply Z.div_pos; lia|]. apply Z.div_lt_upper_bound; lia. }
      destruct (IH (n / 16) (n mod 16 :: acc) j Hq) as [H1 H2].
      * constructor; [apply Z.mod_pos_bound; lia|done].
      * split; [done|]. simpl in H2. lia.
Qed.

Lemma digits_hex (n : Z) :
  0 <= n < 2 ^ 32 ->
  Forall (fun d => 0 <= d < 16) (digits 16 n) /\ (length (digits 16 n) <= 8)%nat.
Proof.
  intros Hn. unfold digits.
  destruct (digits_aux_hex (S (Z.to_nat (Z.log2 n))) n [] 8) as [H1 H2];
    [simpl; lia|constructor|].
  destruct (digits_aux 16 _ n []) as [|d ds]; simpl in *.
  - split; [repeat constructor; lia|lia].
  - split; [done|lia].
Qed.

Lemma digit_char_hex (d : Z) : 0 <= d < 16 -> is_lower_hex_char (digit_char d) = true.
Proof.
  intros Hd. unfold digit_char, is_lower_hex_char.
  destruct (d <? 10) eqn:E.
  - apply Z.ltb_lt in E. apply orb_true_intro. left.
    apply andb_true_intro. split; apply Z.leb_le; lia.
  - apply Z.ltb_ge in E. apply orb_true_intro. right.
    apply andb_true_intro. split; apply Z.leb_le; lia.
Qed.

(** Node numbers are 32-bit: their [!%08x] form is a canonical key. *)
Lemma fmt_node_id_canonical (n : Z) :
  0 <= n < 2 ^ 32 -> is_canonical_key (fmt_node_id n) = true.
Proof.
  intros Hn. destruct (digits_hex n Hn) as [Hd Hlen].
  unfold fmt_node_id.
  replace (n <? 0) with false by (symmetry; apply Z.ltb_ge; lia).
  rewrite Z.abs_eq by lia. simpl.
  rewrite length_app, length_replicate, length_map.
  apply andb_true_intro. split.
  - apply Nat.eqb_eq. lia.
  - rewrite forallb_app. apply andb_true_intro. split.
    + apply forallb_forall. intros x Hx. apply list_elem_of_In in Hx.
      apply elem_of_replicate in Hx as [-> _]. reflexivity.
    + apply forallb_forall. intros x Hx. apply in_map_iff in Hx as (d & <- & Hin).
      apply digit_char_hex. exact (proj1 (List.Forall_forall _ _) Hd d Hin).
Qed.

(** C4: for a 32-bit node number [n], a packet carrying the sender as the
    integer [from = n], with [fromId] missing or falsy (None, 0, an empty
    string), so that [fromId or from] is [n], and a packet carrying it as the transport's
    pre-formatted [fromId = "!%08x" % n] give the same sender key, both for
    mailbox delivery and for the command handlers; that key is the
    canonical "!" + 8 lower-case hex digits. *)
Theorem C4_sender_key_int_or_hex (n : Z) (p1 p2 : Packet) :
  0 <= n < 2 ^ 32 ->
  truthy (p_fromId p1) = false -> p_from p1 = Some (VInt n) ->
  p_fromId p2 = Some (VStr (fmt_node_id n)) ->
  delivery_key p1 = Some (fmt_node_id n) /\ delivery_key p2 = Some (fmt_node_id n) /\
  dispatch_key p1 = fmt_node_id n /\ dispatch_key p2 = fmt_node_id n /\
  is_canonical_key (fmt_node_id n) = true.
Proof.
  intros Hn H1 H1' H2.
  unfold delivery_key, dispatch_key, sender_key_of, py_or.
  rewrite H1, H1', H2. simpl.
  repeat split; try apply fmt_node_id_canonical; done.
Qed.

(** C4 witness: node 0xa1b2c3d4 as an integer and as "!a1b2c3d4". *)
Lemma C4_sender_key_int_or_hex_witness :
  let p1 := {| p_channel := Some (VInt 1); p_decoded := None; p_rx_channel := None;
               p_fromId := Some VNone; p_from := Some (VInt 2712847316);
               p_rxSnr := None; p_rxRssi := None |} in
  let p2 := {| p_channel := Some (VInt 1); p_decoded := None; p_rx_channel := None;
               p_fromId := Some (VStr (lit "!a1b2c3d4")); p_from := Some (VInt 2712847316);
               p_rxSnr := None; p_rxRssi := None |} in
  fmt_node_id 2712847316 = lit "!a1b2c3d4" /\
  delivery_key p1 = delivery_key p2 /\ dispatch_key p1 = dispatch_key p2.
Proof.
  cbv zeta. split; [vm_compute; reflexivity|].
  destruct (C4_sender_key_int_or_hex 2712847316
              {| p_channel := Some (VInt 1); p_decoded := None; p_rx_channel := None;
                 p_fromId := Some VNone; p_from := Some (VInt 2712847316);
                 p_rxSnr := None; p_rxRssi := None |}
              {| p_channel := Some (VInt 1); p_decoded := None; p_rx_channel := None;
                 p_fromId := Some (VStr (fmt_node_id 2712847316)); p_from := Some (VInt 2712847316);
                 p_rxSnr := None; p_rxRssi := None |}
              ltac:(lia) eq_refl eq_refl eq_refl) as (Ha & Hb & Hc & Hd & _).
  replace (lit "!a1b2c3d4") with (fmt_node_id 2712847316) by (vm_compute; reflexivity).
  split; congruence.
Defined.

(** * Further properties of the mailbox *)

(** Purging at [t1] and then at a later [t2] is purging at [t2]. *)
Lemma purge_purge (ttl t1 t2 : Z) (st : Store) :
  t1 <= t2 -> purge ttl t2 (purge ttl t1 st) = purge ttl t2 st.
Proof.
  intros Ht. apply map_eq. intros k.
  rewrite !lookup_purge. destruct (st !! k) as [l|]; [|done].
  rewrite <- (filter_keep_mono (t1 - ttl) (t2 - ttl) l) by lia.
  by destruct (List.filter (keep (t1 - ttl)) l).
Qed.

(** X1: expiry is lazy and monotone: a [get_for] at some time, which
    purges the store, changes nothing that a later (or simultaneous)
    [get_for] or [pop_for] returns; in particular [get_for] followed by
    [pop_for] at the same time returns the same messages twice. *)
Theorem X1_peek_then_take (ttl t1 t2 : Z) (k k' : pystr) (st : Store) :
  t1 <= t2 ->
  fst (pop_for ttl t2 k' (snd (get_for ttl t1 k st))) = fst (pop_for ttl t2 k' st) /\
  fst (get_for ttl t2 k' (snd (get_for ttl t1 k st))) = fst (get_for ttl t2 k' st) /\
  fst (pop_for ttl t1 k (snd (get_for ttl t1 k st))) = fst (get_for ttl t1 k st).
Proof.
  intros Ht. unfold pop_for, get_for; simpl.
  rewrite !purge_purge by lia. done.
Qed.

Lemma X1_peek_then_take_witness :
  let st : Store := {[ lit "!11223344" := [msg_at 0; msg_at 50] ]} in
  fst (pop_for 100 120 (lit "!11223344") (snd (get_for 100 60 (lit "!11223344") st))) =
    fst (pop_for 100 120 (lit "!11223344") st) /\
  fst (get_for 100 120 (lit "!11223344") (snd (get_for 100 60 (lit "!11223344") st))) =
    fst (get_for 100 120 (lit "!11223344") st) /\
  fst (pop_for 100 60 (lit "!11223344") (snd (get_for 100 60 (lit "!11223344") st))) =
    fst (get_for 100 60 (lit "!11223344") st).
Proof. cbv zeta. apply X1_peek_then_take. lia. Defined.

(** X2: insert then lookup: right after [add(k, m)], [get_for] at the same
    time returns the unexpired messages that were under [k] followed by
    [m] (when [m] is itself unexpired), and returns for any other key what
    it returned before. *)
Theorem X2_add_then_get (ttl now : Z) (k k' : pystr) (m : PendingMessage) (st : Store) :
  now - created_ts m <= ttl ->
  fst (get_for ttl now k (mb_add ttl now k m st)) = fst (get_for ttl now k st) ++ [m] /\
  (k' <> k -> fst (get_for ttl now k' (mb_add ttl now k m st)) = fst (get_for ttl now k' st)).
Proof.
  intros Hm. unfold get_for; simpl. rewrite !purge_default, !mb_add_default, !purge_default.
  split.
  - rewrite bool_decide_true by done. rewrite List.filter_app, filter_keep_mono by lia.
    simpl. replace (keep (now - ttl) m) with true; [done|].
    symmetry. unfold keep. apply Z.leb_le. lia.
  - intros Hne. rewrite bool_decide_false by congruence.
    by rewrite app_nil_r, filter_keep_mono by lia.
Qed.

Lemma X2_add_then_get_witness :
  let st : Store := {[ lit "!11223344" := [msg_at 0; msg_at 50] ]} in
  fst (get_for 100 120 (lit "!11223344") (mb_add 100 120 (lit "!11223344") (msg_at 120) st)) =
    fst (get_for 100 120 (lit "!11223344") st) ++ [msg_at 120] /\
  (lit "!55667788" <> lit "!11223344" ->
   fst (get_for 100 120 (lit "!55667788") (mb_add 100 120 (lit "!11223344") (msg_at 120) st)) =
     fst (get_for 100 120 (lit "!55667788") st)).
Proof. cbv zeta. apply X2_add_then_get. simpl. lia. Defined.

(** X3: [pop_for(k)] takes only [k]'s messages: every other key returns
    the same messages afterwards, at the same or a later time. *)
Theorem X3_pop_other_keys (ttl t1 t2 : Z) (k k' : pystr) (st : Store) :
  t1 <= t2 -> k' <> k ->
  fst (get_for ttl t2 k' (snd (pop_for ttl t1 k st))) = fst (get_for ttl t2 k' st).
Proof.
  intros Ht Hne. unfold get_for, pop_for; simpl.
  rewrite !purge_default, lookup_delete_ne by congruence.
  rewrite purge_default. by apply filter_keep_mono; lia.
Qed.

Lemma X3_pop_other_keys_witness :
  let st : Store := {[ lit "!11223344" := [msg_at 50]; lit "!55667788" := [msg_at 60] ]} in
  fst (get_for 100 70 (lit "!55667788") (snd (pop_for 100 70 (lit "!11223344") st))) =
    fst (get_for 100 70 (lit "!55667788") st).
Proof. cbv zeta. apply X3_pop_other_keys; [lia|vm_compute; discriminate]. Defined.

(** * Clamping twice *)

(** X4: clamping is idempotent for every limit: a reply clamped once is
    left as it is by a second clamp to the same limit (for a limit of 0 or
    less the single marker stays the single marker). *)
Theorem X4_clamp_idempotent (s : pystr) (n : Z) : clamp (clamp s n) n = clamp s n.
Proof.
  destruct (Z.le_gt_cases (py_len s) n) as [H|H].
  - by rewrite !(clamp_short s n H).
  - destruct (Z.le_gt_cases 1 n) as [Hn|Hn].
    + apply clamp_short. destruct (clamp_long_length s n) as [-> _]; lia.
    + assert (Hm : forall t : pystr, n < py_len t -> clamp t n = [ELLIPSIS]).
      { intros t Ht. unfold clamp. rewrite (proj2 (Z.leb_gt _ _) Ht).
        by rewrite Z.max_l by lia. }
      rewrite (Hm s H). apply Hm. unfold py_len. simpl. lia.
Qed.

(** * Printed numbers read back *)

Lemma fold_horner_shift (b : Z) (ds : list Z) (a : Z) :
  fold_left (fun x d => x * b + d) ds a =
    a * b ^ Z.of_nat (length ds) + fold_left (fun x d => x * b + d) ds 0.
Proof.
  revert a. induction ds as [|d ds IH]; intros a; simpl; [lia|].
  rewrite (IH (a * b + d)), (IH (0 * b + d)).
  rewrite Nat2Z.inj_succ, Z.pow_succ_r by lia. ring.
Qed.

Lemma digits_aux_value (b : Z) (fuel : nat) (n : Z) (acc : list Z) :
  2 <= b -> 0 <= n < b ^ Z.of_nat fuel ->
  fold_left (fun x d => x * b + d) (digits_aux b fuel n acc) 0 =
    n * b ^ Z.of_nat (length acc) + fold_left (fun x d => x * b + d) acc 0.
Proof.
  intros Hb. revert n acc. induction fuel as [|f IH]; intros n acc Hn; simpl.
  - simpl in Hn. assert (n = 0) as -> by lia. lia.
  - destruct (n =? 0) eqn:E; [apply Z.eqb_eq in E; subst; lia|].
    rewrite Nat2Z.inj_succ, Z.pow_succ_r in Hn by lia.
    rewrite IH.
    + simpl. rewrite (fold_horner_shift b acc (0 * b + n mod b)).
      rewrite Nat2Z.inj_succ, Z.pow_succ_r by lia.
      rewrite (Z.div_mod n b) at 3 by lia. ring.
    + split; [apply Z.div_pos; lia|]. apply Z.div_lt_upper_bound; lia.
Qed.

Lemma digits_value (b n : Z) :
  2 <= b -> 0 <= n -> fold_left (fun x d => x * b + d) (digits b n) 0 = n.
Proof.
  intros Hb Hn. unfold digits.
  assert (Hlt : 0 <= n < b ^ Z.of_nat (S (Z.to_nat (Z.log2 n)))).
  { split; [done|]. rewrite Nat2Z.inj_succ, Z2Nat.id by apply Z.log2_nonneg.
    destruct (Z.eq_dec n 0) as [->|Hn0].
    - apply Z.pow_pos_nonneg; [lia|]. pose proof (Z.log2_nonneg 0). lia.
    - destruct (Z.log2_spec n) as [_ H2]; [lia|].
      eapply Z.lt_le_trans; [exact H2|].
      apply Z.pow_le_mono_l. lia. }
  pose proof (digits_aux_value b _ n [] Hb Hlt) as Hv. cbn [length fold_left Z.of_nat] in Hv. rewrite Z.pow_0_r in Hv.
  destruct (digits_aux b _ n []) as [|d ds] eqn:E; [|lia].
  simpl in Hv |- *. lia.
Qed.

Lemma digits_aux_range (b : Z) (fuel : nat) (n : Z) (acc : list Z) :
  0 < b -> 0 <= n -> Forall (fun d => 0 <= d < b) acc ->
  Forall (fun d => 0 <= d < b) (digits_aux b fuel n acc).
Proof.
  intros Hb. revert n acc. induction fuel as [|f IH]; intros n acc Hn Hacc; simpl; [done|].
  destruct (n =? 0); [done|]. apply IH.
  - apply Z.div_pos; lia.
  - constructor; [apply Z.mod_pos_bound; lia|done].
Qed.

Lemma digits_range (b n : Z) :
  0 < b -> 0 <= n -> Forall (fun d => 0 <= d < b) (digits b n).
Proof.
  intros Hb Hn. unfold digits.
  pose proof (digits_aux_range b (S (Z.to_nat (Z.log2 n))) n [] Hb Hn (List.Forall_nil _)) as H.
  destruct (digits_aux b _ n []); [|done]. constructor; [lia|done].
Qed.

Lemma fold_map_digit_char (ds : list Z) (a : Z) :
  Forall (fun d => 0 <= d < 16) ds ->
  fold_left (fun x c => x * 16 + hex_val c) (map digit_char ds) a =
    fold_left (fun x d => x * 16 + d) ds a.
Proof.
  revert a. induction ds as [|d ds IH]; intros a Hds; [done|].
  inversion Hds as [|? ? Hd Hrest]; subst. simpl. rewrite IH by done.
  f_equal. unfold digit_char, hex_val.
  destruct (d <? 10) eqn:E.
  - apply Z.ltb_lt in E. rewrite (proj2 (Z.leb_le _ _)) by lia. lia.
  - apply Z.ltb_ge in E. rewrite (proj2 (Z.leb_gt _ _)) by lia. lia.
Qed.

Lemma fold_hex_zeros (z : nat) (a : Z) :
  fold_left (fun x c => x * 16 + hex_val c) (replicate z 48) a = a * 16 ^ Z.of_nat z.
Proof.
  revert a. induction z as [|z IH]; intros a; simpl; [lia|].
  rewrite IH. unfold hex_val. simpl.
  rewrite Nat2Z.inj_succ, Z.pow_succ_r by lia. ring.
Qed.

(** X5: a node number printed as its key [f"!{n:08x}"] is read back
    exactly, so distinct non-negative node numbers get distinct keys. *)
Theorem X5_node_id_roundtrip (n1 n2 : Z) :
  0 <= n1 -> 0 <= n2 ->
  parse_node_id (fmt_node_id n1) = n1 /\ (fmt_node_id n1 = fmt_node_id n2 -> n1 = n2).
Proof.
  assert (Hrt : forall n, 0 <= n -> parse_node_id (fmt_node_id n) = n).
  { intros n Hn. unfold fmt_node_id.
    replace (n <? 0) with false by (symmetry; apply Z.ltb_ge; lia).
    rewrite Z.abs_eq by lia. simpl.
    rewrite fold_left_app, fold_hex_zeros. simpl.
    rewrite fold_map_digit_char by (apply digits_range; lia).
    by apply digits_value. }
  intros H1 H2. split; [by apply Hrt|].
  intros Heq. rewrite <- (Hrt n1 H1), <- (Hrt n2 H2). by rewrite Heq.
Qed.

Lemma X5_node_id_roundtrip_witness :
  parse_node_id (fmt_node_id 2712847316) = 2712847316 /\
  (fmt_node_id 2712847316 = fmt_node_id 17 -> 2712847316 = 17).
Proof. apply X5_node_id_roundtrip; lia. Defined.

Lemma fold_dur_digits (ds : list Z) (t c : Z) :
  Forall (fun d => 0 <= d < 10) ds ->
  fold_left dur_step (map digit_char ds) (t, c) = (t, fold_left (fun x d => x * 10 + d) ds c).
Proof.
  revert c. induction ds as [|d ds IH]; intros c Hds; [done|].
  inversion Hds as [|? ? Hd Hrest]; subst. simpl.
  unfold digit_char. rewrite (proj2 (Z.ltb_lt d 10)) by lia.
  rewrite (proj2 (Z.leb_le 48 (48 + d))), (proj2 (Z.leb_le (48 + d) 57)) by lia.
  simpl. rewrite IH by done. do 2 f_equal. lia.
Qed.

Lemma fold_dur_int (x t : Z) :
  0 <= x -> fold_left dur_step (py_int_str x) (t, 0) = (t, x).
Proof.
  intros Hx. unfold py_int_str.
  rewrite (proj2 (Z.ltb_ge x 0)) by lia. rewrite Z.abs_eq by lia. simpl.
  rewrite fold_dur_digits by (apply digits_range; lia).
  by rewrite digits_value by lia.
Qed.

(** Each printed part adds its value to the total; the spaces between
    parts change nothing. *)
Lemma fold_dur_join (parts : list pystr) (ws : list Z) :
  Forall2 (fun p w => forall t, fold_left dur_step p (t, 0) = (t + w, 0)) parts ws ->
  forall t, fold_left dur_step (join_space parts) (t, 0) = (t + fold_right Z.add 0 ws, 0).
Proof.
  induction 1 as [|p w parts ws Hp Hrest IH]; intros t; simpl; [f_equal; lia|].
  destruct parts as [|p2 parts].
  - inversion Hrest; subst. simpl. rewrite Hp. f_equal. lia.
  - rewrite !fold_left_app, Hp. simpl. rewrite IH. f_equal. lia.
Qed.

Lemma dur_part (x mult u : Z) :
  0 <= x -> (forall t, dur_step (t, x) u = (t + x * mult, 0)) ->
  forall t, fold_left dur_step (py_int_str x ++ [u]) (t, 0) = (t + x * mult, 0).
Proof. intros Hx Hu t. rewrite fold_left_app, fold_dur_int by done. apply Hu. Qed.

Lemma dur_opt_part (x mult u : Z) :
  0 <= x -> (forall t, dur_step (t, x) u = (t + x * mult, 0)) ->
  Forall2 (fun p w => forall t, fold_left dur_step p (t, 0) = (t + w, 0))
    (if x =? 0 then [] else [py_int_str x ++ [u]])
    (if x =? 0 then [] else [x * mult]).
Proof.
  intros Hx Hu. destruct (x =? 0); [constructor|].
  constructor; [|constructor]. by apply dur_part.
Qed.

(** X6: [format_duration] keeps the whole seconds of a non-negative age:
    reading its text back (each number times its unit d, h, m, s) gives
    [int(seconds)], the age with its fractional part dropped. *)
Theorem X6_format_duration_roundtrip (seconds : Q) :
  0 <= Qnum seconds -> parse_duration (format_duration seconds) = float_int seconds.
Proof.
  intros Hq. assert (Hs : 0 <= float_int seconds) by (unfold float_int; apply Z.quot_pos; lia).
  unfold parse_duration, format_duration.
  revert Hs. generalize (float_int seconds) as s. clear seconds Hq. intros s Hs.
  set (days := s / 86400). set (r1 := s mod 86400).
  set (hours := r1 / 3600). set (r2 := r1 mod 3600).
  set (minutes := r2 / 60). set (secs := r2 mod 60).
  assert (Hd : 0 <= days) by (apply Z.div_pos; lia).
  assert (Hr1 : 0 <= r1 < 86400) by (apply Z.mod_pos_bound; lia).
  assert (Hh : 0 <= hours) by (apply Z.div_pos; lia).
  assert (Hr2 : 0 <= r2 < 3600) by (apply Z.mod_pos_bound; lia).
  assert (Hm : 0 <= minutes) by (apply Z.div_pos; lia).
  assert (Hsec : 0 <= secs < 60) by (apply Z.mod_pos_bound; lia).
  assert (E1 : s = 86400 * days + r1) by (apply Z.div_mod; lia).
  assert (E2 : r1 = 3600 * hours + r2) by (apply Z.div_mod; lia).
  assert (E3 : r2 = 60 * minutes + secs) by (apply Z.div_mod; lia).
  rewrite (fold_dur_join _
             ((if days =? 0 then [] else [days * 86400]) ++
              (if hours =? 0 then [] else [hours * 3600]) ++
              (if minutes =? 0 then [] else [minutes * 60]) ++ [secs * 1])).
  - simpl. rewrite !fold_right_app.
    destruct (days =? 0) eqn:Ed, (hours =? 0) eqn:Eh, (minutes =? 0) eqn:Em;
      simpl; rewrite ?Z.eqb_eq in *; lia.
  - apply Forall2_app; [apply dur_opt_part; [done|intros t; simpl; f_equal; lia]|].
    apply Forall2_app; [apply dur_opt_part; [done|intros t; simpl; f_equal; lia]|].
    apply Forall2_app; [apply dur_opt_part; [done|intros t; simpl; f_equal; lia]|].
    constructor; [|constructor]. apply dur_part; [lia|]. intros t; simpl; f_equal; lia.
Qed.

Lemma X6_format_duration_roundtrip_witness :
  float_int (937847 # 10) = 93784 /\
  parse_duration (format_duration (937847 # 10)) = float_int (937847 # 10).
Proof.
  split; [reflexivity|].
  apply (X6_format_duration_roundtrip (937847 # 10)). simpl. lia.
Defined.

(** * Delivery, [!msg], [!inbox] and the dispatcher *)

Lemma fold_send_fields cfg (f : PendingMessage -> pystr) ms b :
  fold_left (fun b m => send_channel cfg (f m) b) ms b =
  {| mailbox := mailbox b; session := session b;
     outbox := outbox b ++ map (fun m => clamp (f m) (max_reply_len cfg)) ms |}.
Proof.
  revert b. induction ms as [|m ms IH]; intros b.
  - destruct b; simpl. by rewrite app_nil_r.
  - simpl. rewrite IH. simpl. by rewrite <- app_assoc.
Qed.

Lemma get_for_mb_add_same (ttl now : Z) (k : pystr) (m : PendingMessage) (st : Store) :
  now - created_ts m <= ttl ->
  fst (get_for ttl now k (mb_add ttl now k m st)) = fst (get_for ttl now k st) ++ [m].
Proof.
  intros Hm. unfold get_for; simpl. rewrite !purge_default, !mb_add_default, !purge_default.
  rewrite bool_decide_true by done. rewrite List.filter_app, filter_keep_mono by lia.
  simpl. replace (keep (now - ttl) m) with true; [done|].
  symmetry. unfold keep. apply Z.leb_le. lia.
Qed.

(** X7: delivery on activity: when a packet carries a sender key, every
    unexpired message pending for that key is sent, in the order it was
    stored, as one clamped "For ..." reply each, and the key is removed
    from the mailbox, so nothing is pending for it afterwards at any time. *)
Theorem X7_deliver_pending (cfg : Config) (nodes : Nodes) (now : Z) (p : Packet) (b : Bot)
    (k : pystr) :
  delivery_key p = Some k ->
  let pending := fst (get_for (mailbox_ttl_seconds cfg) now k (mailbox b)) in
  let dest := default k (py_or str_truthy (lookup_node_name nodes k) None) in
  outbox (maybe_deliver_mailbox cfg nodes now p b) =
    outbox b ++ map (fun m => clamp (delivery_text dest now m) (max_reply_len cfg)) pending /\
  mailbox (maybe_deliver_mailbox cfg nodes now p b) =
    delete k (purge (mailbox_ttl_seconds cfg) now (mailbox b)) /\
  (forall t, fst (get_for (mailbox_ttl_seconds cfg) t k
                    (mailbox (maybe_deliver_mailbox cfg nodes now p b))) = []).
Proof.
  intros Hk pending dest. subst pending dest.
  unfold maybe_deliver_mailbox. rewrite Hk. unfold pop_for, get_for. simpl.
  assert (Hdel : forall t, default [] (purge (mailbox_ttl_seconds cfg) t
             (delete k (purge (mailbox_ttl_seconds cfg) now (mailbox b))) !! k) = []).
  { intros t. by rewrite purge_default, lookup_delete_eq. }
  destruct (default [] (purge (mailbox_ttl_seconds cfg) now (mailbox b) !! k)) as [|m ms].
  - simpl. by rewrite app_nil_r.
  - rewrite fold_send_fields. simpl. done.
Qed.

Lemma X7_deliver_pending_witness :
  let b := set_mailbox {[ fmt_node_id 7 := [msg_at 100; msg_at 200] ]} bot_fresh in
  let p := text_packet 1 7 (lit "hi") in
  delivery_key p = Some (fmt_node_id 7) /\
  (let pending := fst (get_for (mailbox_ttl_seconds cfg_default) 300 (fmt_node_id 7) (mailbox b)) in
   let dest := default (fmt_node_id 7)
                 (py_or str_truthy (lookup_node_name [] (fmt_node_id 7)) None) in
   outbox (maybe_deliver_mailbox cfg_default [] 300 p b) =
     outbox b ++ map (fun m => clamp (delivery_text dest 300 m) (max_reply_len cfg_default)) pending /\
   mailbox (maybe_deliver_mailbox cfg_default [] 300 p b) =
     delete (fmt_node_id 7) (purge (mailbox_ttl_seconds cfg_default) 300 (mailbox b)) /\
   (forall t, fst (get_for (mailbox_ttl_seconds cfg_default) t (fmt_node_id 7)
                     (mailbox (maybe_deliver_mailbox cfg_default [] 300 p b))) = [])).
Proof.
  cbv zeta. split; [vm_compute; reflexivity|].
  apply X7_deliver_pending. vm_compute. reflexivity.
Defined.

(** X8: [!msg] always answers with exactly one reply, and it leaves the
    mailbox as it was (not even purged) when it has fewer than two
    arguments, when the message text is blank, or when the target does not
    resolve to a key. *)
Theorem X8_cmd_msg_one_reply (py_lower : pystr -> pystr) (cfg : Config) (nodes : Nodes)
    (now : Z) (sk : pystr) (args : list pystr) (b : Bot) :
  length (outbox (cmd_msg py_lower cfg nodes now sk args b)) = S (length (outbox b)) /\
  ((length args < 2)%nat -> mailbox (cmd_msg py_lower cfg nodes now sk args b) = mailbox b) /\
  (forall tok rest, args = tok :: rest -> strip (join_space rest) = [] ->
     mailbox (cmd_msg py_lower cfg nodes now sk args b) = mailbox b) /\
  (forall tok rest, args = tok :: rest ->
     (forall c key, fst (resolve_target py_lower nodes tok) <> Some (c :: key)) ->
     mailbox (cmd_msg py_lower cfg nodes now sk args b) = mailbox b).
Proof.
  assert (Hlen : forall t b', length (outbox (send_channel cfg t b')) = S (length (outbox b'))).
  { intros t b'. simpl. rewrite length_app. simpl. lia. }
  unfold cmd_msg.
  destruct args as [|tok [|r rest]].
  - refine (conj (Hlen _ _) (conj (fun _ => eq_refl) (conj _ _)));
      intros ? ? Habs; discriminate.
  - refine (conj (Hlen _ _) (conj (fun _ => eq_refl) (conj _ _)));
      intros; reflexivity.
  - destruct (strip (join_space (r :: rest))) as [|c0 txt] eqn:Etxt.
    + refine (conj (Hlen _ _) (conj _ (conj _ _))); [simpl; lia|done|done].
    + destruct (resolve_target py_lower nodes tok) as [[[|c key]|] tn] eqn:Ert.
      * refine (conj (Hlen _ _) (conj _ (conj _ _))); [simpl; lia|done|done].
      * refine (conj (Hlen _ _) (conj _ (conj _ _))); [simpl; lia| |].
        -- intros tok' rest' [= <- <-]. congruence.
        -- intros tok' rest' [= <- <-] Hno. exfalso. apply (Hno c key). by rewrite Ert.
      * refine (conj (Hlen _ _) (conj _ (conj _ _))); [simpl; lia|done|done].
Qed.

Lemma get_for_mb_add_expired (ttl now : Z) (k : pystr) (m : PendingMessage) (st : Store) :
  ttl < now - created_ts m ->
  fst (get_for ttl now k (mb_add ttl now k m st)) = fst (get_for ttl now k st).
Proof.
  intros Hm. unfold get_for; simpl. rewrite !purge_default, !mb_add_default, !purge_default.
  rewrite bool_decide_true by done. rewrite List.filter_app, filter_keep_mono by lia.
  simpl. replace (keep (now - ttl) m) with false; [by rewrite app_nil_r|].
  symmetry. unfold keep. apply Z.leb_gt. lia.
Qed.

(** X9: store then read: when [!msg <target> <text>] has a non-blank text
    and the target resolves to a key, then with a non-negative TTL the
    target's pending messages (as [get_for] returns them at that moment)
    are the ones it had before followed by one new message, stamped with
    the current time and holding the text clamped to 400 characters; with
    a negative TTL the new message is already expired and [get_for]
    returns what it returned before. *)
Theorem X9_msg_then_get (py_lower : pystr -> pystr) (cfg : Config) (nodes : Nodes)
    (now : Z) (sk tok : pystr) (rest : list pystr) (b : Bot) (k : pystr) :
  strip (join_space rest) <> [] ->
  fst (resolve_target py_lower nodes tok) = Some k -> k <> [] ->
  (0 <= mailbox_ttl_seconds cfg ->
   exists m,
     fst (get_for (mailbox_ttl_seconds cfg) now k
            (mailbox (cmd_msg py_lower cfg nodes now sk (tok :: rest) b))) =
       fst (get_for (mailbox_ttl_seconds cfg) now k (mailbox b)) ++ [m] /\
     created_ts m = now /\ text m = clamp (strip (join_space rest)) 400) /\
  (mailbox_ttl_seconds cfg < 0 ->
   fst (get_for (mailbox_ttl_seconds cfg) now k
          (mailbox (cmd_msg py_lower cfg nodes now sk (tok :: rest) b))) =
     fst (get_for (mailbox_ttl_seconds cfg) now k (mailbox b))).
Proof.
  intros Htxt Hres Hk.
  unfold cmd_msg.
  destruct rest as [|r rest]; [done|].
  destruct (strip (join_space (r :: rest))) as [|c0 txt] eqn:Etxt; [done|].
  destruct (resolve_target py_lower nodes tok) as [key tn]. simpl in Hres. subst key.
  destruct k as [|c k]; [done|].
  rewrite send_channel_mailbox. cbn [mailbox set_mailbox].
  split.
  - intros Httl. eexists.
    split; [apply get_for_mb_add_same; simpl; lia|split; reflexivity].
  - intros Httl. apply get_for_mb_add_expired. simpl. lia.
Qed.

Lemma X9_msg_then_get_witness :
  strip (join_space [lit "hello"]) <> [] /\
  fst (resolve_target ascii_lower [] (lit "!A1B2C3D4")) = Some (lit "!a1b2c3d4") /\
  lit "!a1b2c3d4" <> [] /\
  (0 <= mailbox_ttl_seconds cfg_default ->
   exists m,
     fst (get_for (mailbox_ttl_seconds cfg_default) 50 (lit "!a1b2c3d4")
            (mailbox (cmd_msg ascii_lower cfg_default [] 50 (lit "!00000007")
                        [lit "!A1B2C3D4"; lit "hello"] bot_fresh))) =
       fst (get_for (mailbox_ttl_seconds cfg_default) 50 (lit "!a1b2c3d4") (mailbox bot_fresh)) ++ [m] /\
     created_ts m = 50 /\ text m = clamp (strip (join_space [lit "hello"])) 400) /\
  (mailbox_ttl_seconds cfg_default < 0 ->
   fst (get_for (mailbox_ttl_seconds cfg_default) 50 (lit "!a1b2c3d4")
          (mailbox (cmd_msg ascii_lower cfg_default [] 50 (lit "!00000007")
                      [lit "!A1B2C3D4"; lit "hello"] bot_fresh))) =
     fst (get_for (mailbox_ttl_seconds cfg_default) 50 (lit "!a1b2c3d4") (mailbox bot_fresh))).
Proof.
  assert (H1 : strip (join_space [lit "hello"]) <> []) by (vm_compute; discriminate).
  assert (H2 : fst (resolve_target ascii_lower [] (lit "!A1B2C3D4")) = Some (lit "!a1b2c3d4"))
    by (vm_compute; reflexivity).
  assert (H3 : lit "!a1b2c3d4" <> []) by (vm_compute; discriminate).
  split; [exact H1|]. split; [exact H2|]. split; [exact H3|].
  exact (X9_msg_then_get ascii_lower cfg_default [] 50 (lit "!00000007") (lit "!A1B2C3D4")
           [lit "hello"] bot_fresh (lit "!a1b2c3d4") H1 H2 H3).
Defined.

(** X10: [!inbox] only reads: it sends exactly one reply, and every key
    returns the same pending messages afterwards as before, at the time of
    the command or any later time, so the messages are still delivered
    later. *)
Theorem X10_inbox_keeps_messages (cfg : Config) (now t : Z) (sk k : pystr) (b : Bot) :
  now <= t ->
  length (outbox (cmd_inbox cfg now sk b)) = S (length (outbox b)) /\
  fst (get_for (mailbox_ttl_seconds cfg) t k (mailbox (cmd_inbox cfg now sk b))) =
    fst (get_for (mailbox_ttl_seconds cfg) t k (mailbox b)).
Proof.
  intros Ht.
  assert (Hmb : mailbox (cmd_inbox cfg now sk b) = purge (mailbox_ttl_seconds cfg) now (mailbox b) /\
                length (outbox (cmd_inbox cfg now sk b)) = S (length (outbox b))).
  { unfold cmd_inbox, get_for.
    destruct (default [] (purge (mailbox_ttl_seconds cfg) now (mailbox b) !! sk));
      simpl; rewrite length_app; simpl; split; done || lia. }
  destruct Hmb as [Hmb Hlen]. split; [done|].
  rewrite Hmb. unfold get_for. simpl. by rewrite purge_purge.
Qed.

Lemma X10_inbox_keeps_messages_witness :
  let b := set_mailbox {[ lit "!11223344" := [msg_at 100] ]} bot_fresh in
  length (outbox (cmd_inbox cfg_default 200 (lit "!11223344") b)) = S (length (outbox b)) /\
  fst (get_for (mailbox_ttl_seconds cfg_default) 300 (lit "!11223344")
         (mailbox (cmd_inbox cfg_default 200 (lit "!11223344") b))) =
    fst (get_for (mailbox_ttl_seconds cfg_default) 300 (lit "!11223344") (mailbox b)).
Proof. cbv zeta. apply X10_inbox_keeps_messages. lia. Defined.

(** X11: on the bot's channel, a text packet whose stripped text does not
    start with the command prefix, or is the bare prefix (possibly followed
    by blanks), only triggers mailbox delivery: no command runs and no
    other reply is sent. *)
Theorem X11_no_command (py_lower : pystr -> pystr) (int_of_pystr : pystr -> option Z)
    (builtin_reply : Builtin -> Packet -> pystr -> list pystr -> pystr)
    (cfg : Config) (nodes : Nodes) (now : Z) (p : Packet) (t : pystr) (b : Bot) :
  packet_channel_index int_of_pystr p = Some (channel_index cfg) ->
  decoded_field d_text p = Some (VStr t) ->
  starts_with (command_prefix cfg) (strip t) = false \/ strip t = command_prefix cfg ->
  on_receive py_lower int_of_pystr builtin_reply cfg nodes now (Some p) b =
    maybe_deliver_mailbox cfg nodes now p b.
Proof.
  intros Hch Htxt Hcase. unfold on_receive. rewrite Htxt, bool_decide_true by done.
  destruct Hcase as [Hno|Heq].
  - destruct (strip t) as [|c t'] eqn:Es; [done|]. by rewrite Hno.
  - rewrite Heq. destruct (command_prefix cfg) as [|c pr] eqn:Ep; [done|].
    pose proof (starts_with_app (c :: pr) []) as Hs. rewrite app_nil_r in Hs. rewrite Hs.
    unfold dispatch. rewrite Ep, drop_all. done.
Qed.

Lemma X11_no_command_witness :
  let p := text_packet 1 7 (lit "!  ") in
  packet_channel_index (fun _ => None) p = Some (channel_index cfg_default) /\
  decoded_field d_text p = Some (VStr (lit "!  ")) /\
  (starts_with (command_prefix cfg_default) (strip (lit "!  ")) = false \/
   strip (lit "!  ") = command_prefix cfg_default) /\
  on_receive ascii_lower (fun _ => None) reply_stub cfg_default [] 10 (Some p) bot_fresh =
    maybe_deliver_mailbox cfg_default [] 10 p bot_fresh.
Proof.
  cbv zeta.
  assert (H1 : packet_channel_index (fun _ => None) (text_packet 1 7 (lit "!  ")) =
               Some (channel_index cfg_default)) by reflexivity.
  assert (H2 : decoded_field d_text (text_packet 1 7 (lit "!  ")) = Some (VStr (lit "!  ")))
    by reflexivity.
  assert (H3 : starts_with (command_prefix cfg_default) (strip (lit "!  ")) = false \/
               strip (lit "!  ") = command_prefix cfg_default) by (right; vm_compute; reflexivity).
  split; [exact H1|]. split; [exact H2|]. split; [exact H3|].
  exact (X11_no_command ascii_lower (fun _ => None) reply_stub cfg_default [] 10 _ _ bot_fresh H1 H2 H3).
Defined.

(** The scan returns the key of the first entry whose trimmed long or
    short name, lower-cased, is the lower-cased token. *)
Lemma resolve_scan_first (py_lower : pystr -> pystr) (token_l : pystr) (nodes : Nodes)
    (k : pystr) (nm : option pystr) :
  resolve_scan py_lower token_l nodes = (Some k, nm) ->
  exists pre v post,
    nodes = pre ++ (k, v) :: post /\
    (py_lower (strip (default [] (user_field u_longName v))) = token_l \/
     py_lower (strip (default [] (user_field u_shortName v))) = token_l) /\
    Forall (fun kv =>
      py_lower (strip (default [] (user_field u_longName (snd kv)))) <> token_l /\
      py_lower (strip (default [] (user_field u_shortName (snd kv)))) <> token_l) pre.
Proof.
  induction nodes as [|[k0 v0] t IH]; simpl; [discriminate|].
  case_bool_decide as Hl; simpl; [intros [= <- _]; exists [], v0, t; split; [done|split; [by left|constructor]]|].
  case_bool_decide as Hs; simpl.
  - intros [= <- _]. exists [], v0, t. split; [done|split; [by right|constructor]].
  - intros Hr. destruct (IH Hr) as (pre & v & post & -> & Hm & Hpre).
    exists ((k0, v0) :: pre), v, post. split; [done|split; [done|]].
    constructor; [simpl; split; done|done].
Qed.

Lemma resolve_scan_complete (py_lower : pystr -> pystr) (token_l : pystr) (pre post : Nodes)
    (k : pystr) (v : NodeVal) :
  (py_lower (strip (default [] (user_field u_longName v))) = token_l \/
   py_lower (strip (default [] (user_field u_shortName v))) = token_l) ->
  Forall (fun kv =>
    py_lower (strip (default [] (user_field u_longName (snd kv)))) <> token_l /\
    py_lower (strip (default [] (user_field u_shortName (snd kv)))) <> token_l) pre ->
  fst (resolve_scan py_lower token_l (pre ++ (k, v) :: post)) = Some k.
Proof.
  intros Hm Hpre. induction Hpre as [|[k0 v0] pre [Hl Hs] Hpre IH]; simpl.
  - destruct Hm as [Hm|Hm].
    + by rewrite bool_decide_true.
    + rewrite (bool_decide_true (_ = _) Hm), orb_true_r. done.
  - simpl in Hl, Hs. rewrite !bool_decide_false by done. exact IH.
Qed.

(** X12: a target that is not a hex id resolves by name, in directory
    order: it resolves to the key [k] exactly when [k] is the key of the
    first directory entry whose trimmed long name or short name equals the
    trimmed token, compared in lower case (no earlier entry matches). *)
Theorem X12_resolve_first_name (py_lower : pystr -> pystr) (nodes : Nodes) (tok k : pystr) :
  is_hex_id (strip tok) = false ->
  fst (resolve_target py_lower nodes tok) = Some k <->
  exists pre v post,
    nodes = pre ++ (k, v) :: post /\
    (py_lower (strip (default [] (user_field u_longName v))) = py_lower (strip tok) \/
     py_lower (strip (default [] (user_field u_shortName v))) = py_lower (strip tok)) /\
    Forall (fun kv =>
      py_lower (strip (default [] (user_field u_longName (snd kv)))) <> py_lower (strip tok) /\
      py_lower (strip (default [] (user_field u_shortName (snd kv)))) <> py_lower (strip tok)) pre.
Proof.
  intros Hhex. unfold resolve_target. rewrite Hhex. split.
  - intros Hr. destruct (resolve_scan py_lower (py_lower (strip tok)) nodes) as [k' nm] eqn:Es.
    simpl in Hr. subst k'. by apply resolve_scan_first in Es.
  - intros (pre & v & post & -> & Hm & Hpre). by apply resolve_scan_complete.
Qed.

Lemma X12_resolve_first_name_witness :
  let nodes := [(lit "!aaaaaaaa", node_named "ALICE" "Alice");
                (lit "!bbbbbbbb", node_named "BOB" "Bob One");
                (lit "!cccccccc", node_named "bob" "Bob Two")] in
  is_hex_id (strip (lit " bob ")) = false /\
  fst (resolve_target ascii_lower nodes (lit " bob ")) = Some (lit "!bbbbbbbb").
Proof.
  cbv zeta.
  assert (H1 : is_hex_id (strip (lit " bob ")) = false) by (vm_compute; reflexivity).
  split; [exact H1|].
  apply (X12_resolve_first_name ascii_lower _ _ _ H1).
  exists [(lit "!aaaaaaaa", node_named "ALICE" "Alice")], (node_named "BOB" "Bob One"),
    [(lit "!cccccccc", node_named "bob" "Bob Two")].
  split; [reflexivity|]. split; [right; vm_compute; reflexivity|].
  constructor; [vm_compute; split; discriminate|constructor].
Defined.

(** X13: [lookup_node_name] falls back on [user.id]: when the key is not a
    directory key (or its entry is empty), the name is the short name, or
    else the long name, of the first entry whose [user.id] is the key. *)
Theorem X13_lookup_by_user_id (nodes : Nodes) (key k : pystr) (v : NodeVal)
    (pre post : Nodes) :
  match dict_get nodes key with Some n => node_truthy n = false | None => True end ->
  nodes = pre ++ (k, v) :: post ->
  user_field u_id v = Some key ->
  Forall (fun kv => user_field u_id (snd kv) <> Some key) pre ->
  lookup_node_name nodes key = py_or str_truthy (user_field u_shortName v) (user_field u_longName v).
Proof.
  intros Hdir Hn Hid Hpre. unfold lookup_node_name.
  assert (Hfind : List.find (fun kv => bool_decide (user_field u_id (snd kv) = Some key)) nodes
                  = Some (k, v)).
  { subst nodes. clear Hdir. induction Hpre as [|[k0 v0] pre Hk0 Hpre IH]; simpl.
    - by rewrite bool_decide_true.
    - rewrite bool_decide_false by done. exact IH. }
  destruct (dict_get nodes key) as [n|].
  - rewrite Hdir, Hfind. done.
  - rewrite Hfind. done.
Qed.

Lemma X13_lookup_by_user_id_witness :
  let v := {| nv_user := Some {| u_id := Some (lit "!0000abcd"); u_longName := Some (lit "Base");
                                 u_shortName := Some [] |}; nv_other := true |} in
  let nodes := [(lit "node-1", node_named "A" "Alpha"); (lit "node-2", v)] in
  match dict_get nodes (lit "!0000abcd") with Some n => node_truthy n = false | None => True end /\
  nodes = [(lit "node-1", node_named "A" "Alpha")] ++ (lit "node-2", v) :: [] /\
  user_field u_id v = Some (lit "!0000abcd") /\
  Forall (fun kv => user_field u_id (snd kv) <> Some (lit "!0000abcd"))
    [(lit "node-1", node_named "A" "Alpha")] /\
  lookup_node_name nodes (lit "!0000abcd") =
    py_or str_truthy (user_field u_shortName v) (user_field u_longName v).
Proof.
  cbv zeta.
  assert (Hpre : Forall (fun kv => user_field u_id (snd kv) <> Some (lit "!0000abcd"))
                   [(lit "node-1", node_named "A" "Alpha")]).
  { constructor; [simpl; discriminate|constructor]. }
  split; [exact I|]. split; [reflexivity|]. split; [reflexivity|]. split; [exact Hpre|].
  apply (X13_lookup_by_user_id _ _ (lit "node-2") _ [(lit "node-1", node_named "A" "Alpha")] []);
    [exact I|reflexivity|reflexivity|exact Hpre].
Defined.

Lemma first_int_spec (int_of_pystr : pystr -> option Z) (vs : list (option pyval)) (z : Z) :
  first_int int_of_pystr vs = Some z <->
  exists pre v post,
    vs = pre ++ Some v :: post /\ v <> VNone /\ py_int int_of_pystr v = Some z /\
    Forall (fun o => match o with
                     | Some v' => v' = VNone \/ py_int int_of_pystr v' = None
                     | None => True end) pre.
Proof.
  split.
  - induction vs as [|[v|] t IH]; simpl; [discriminate| |].
    + destruct v as [| z0 | s | tr i st] eqn:Ev.
      * intros H. destruct (IH H) as (pre & v' & post & -> & ? & ? & ?).
        exists (Some VNone :: pre), v', post. repeat split; try done. constructor; [by left|done].
      * intros [= <-]. by exists [], (VInt z0), t.
      * simpl. destruct (int_of_pystr s) as [z0|] eqn:Ei.
        -- intros [= <-]. exists [], (VStr s), t. simpl. by rewrite Ei.
        -- intros H. destruct (IH H) as (pre & v' & post & -> & ? & ? & ?).
           exists (Some (VStr s) :: pre), v', post. repeat split; try done.
           constructor; [right; simpl; exact Ei|done].
      * simpl. destruct i as [z0|].
        -- intros [= <-]. by exists [], (VOther tr (Some z0) st), t.
        -- intros H. destruct (IH H) as (pre & v' & post & -> & ? & ? & ?).
           exists (Some (VOther tr None st) :: pre), v', post. repeat split; try done.
           constructor; [by right|done].
    + intros H. destruct (IH H) as (pre & v' & post & -> & ? & ? & ?).
      exists (None :: pre), v', post. repeat split; try done. by constructor.
  - intros (pre & v & post & -> & Hv & Hz & Hpre).
    induction Hpre as [|o pre Ho Hpre IH]; simpl.
    + destruct v; [done| | |]; by rewrite Hz.
    + destruct o as [v'|]; [|exact IH].
      destruct Ho as [->|Hn]; [exact IH|].
      destruct v'; simpl in Hn |- *; try exact IH; by rewrite Hn.
Qed.

(** X14: [packet_channel_index] is the [int] of the first of the paths
    channel, decoded.channel, decoded.channelIndex, rx.channel whose value
    is present, not None and accepted by [int]; every earlier path is
    absent, None or rejected by [int] (a rejected value is skipped, not an
    error). *)
Theorem X14_channel_index_first_path (int_of_pystr : pystr -> option Z) (p : Packet) (z : Z) :
  packet_channel_index int_of_pystr p = Some z <->
  exists pre v post,
    [p_channel p; decoded_field d_channel p; decoded_field d_channelIndex p; p_rx_channel p]
      = pre ++ Some v :: post /\
    v <> VNone /\ py_int int_of_pystr v = Some z /\
    Forall (fun o => match o with
                     | Some v' => v' = VNone \/ py_int int_of_pystr v' = None
                     | None => True end) pre.
Proof. apply first_int_spec. Qed.

Lemma maybe_deliver_mailbox_eq (cfg : Config) (nodes : Nodes) (now : Z) (p : Packet) (b : Bot)
    (k : pystr) :
  delivery_key p = Some k ->
  mailbox (maybe_deliver_mailbox cfg nodes now p b) =
    delete k (purge (mailbox_ttl_seconds cfg) now (mailbox b)).
Proof.
  intros Hk. unfold maybe_deliver_mailbox. rewrite Hk. unfold pop_for. simpl.
  destruct (default [] (purge (mailbox_ttl_seconds cfg) now (mailbox b) !! k)); [done|].
  by rewrite fold_send_fields.
Qed.

(** X15: [!inbox] never lists a message that was pending when the command
    arrived: the packet carrying it first delivers everything pending for
    its sender, so the command's reply is the clamped "Inbox: empty" text,
    sent after the deliveries. *)
Theorem X15_inbox_after_delivery (py_lower : pystr -> pystr) (int_of_pystr : pystr -> option Z)
    (builtin_reply : Builtin -> Packet -> pystr -> list pystr -> pystr)
    (cfg : Config) (nodes : Nodes) (now : Z) (p : Packet) (t k : pystr) (b : Bot) :
  packet_channel_index int_of_pystr p = Some (channel_index cfg) ->
  decoded_field d_text p = Some (VStr t) ->
  strip t = command_prefix cfg ++ lit "inbox" ->
  py_lower (lit "inbox") = lit "inbox" ->
  delivery_key p = Some k ->
  outbox (on_receive py_lower int_of_pystr builtin_reply cfg nodes now (Some p) b) =
    outbox (maybe_deliver_mailbox cfg nodes now p b)
      ++ [clamp ([128237] ++ lit " Inbox: empty.") (max_reply_len cfg)].
Proof.
  intros Hch Htxt Hs Hlow Hk. unfold on_receive. rewrite Htxt, bool_decide_true by done.
  rewrite Hs.
  assert (Hne : command_prefix cfg ++ lit "inbox" <> []) by (by destruct (command_prefix cfg)).
  destruct (command_prefix cfg ++ lit "inbox") as [|c0 r] eqn:Er; [done|].
  rewrite <- Er, starts_with_app. unfold dispatch.
  rewrite drop_app_length.
  assert (Hdk : dispatch_key p = k).
  { unfold dispatch_key. unfold delivery_key in Hk.
    destruct (sender_key_of p) as [[|c1 s1]|]; congruence. }
  rewrite Hdk.
  replace (split_ws (strip (lit "inbox"))) with [lit "inbox"] by reflexivity.
  rewrite Hlow. replace (select_handler (lit "inbox")) with HInbox by reflexivity.
  unfold cmd_inbox, get_for.
  rewrite (maybe_deliver_mailbox_eq _ _ _ _ _ _ Hk), purge_default, lookup_delete_eq.
  done.
Qed.

Lemma X15_inbox_after_delivery_witness :
  let b := set_mailbox {[ fmt_node_id 7 := [msg_at 100] ]} bot_fresh in
  let p := text_packet 1 7 (lit " !inbox ") in
  outbox (on_receive ascii_lower (fun _ => None) reply_stub cfg_default [] 300 (Some p) b) =
    outbox (maybe_deliver_mailbox cfg_default [] 300 p b)
      ++ [clamp ([128237] ++ lit " Inbox: empty.") (max_reply_len cfg_default)].
Proof.
  cbv zeta.
  apply (X15_inbox_after_delivery _ _ _ _ _ _ _ (lit " !inbox ") (fmt_node_id 7));
    vm_compute; reflexivity.
Defined.

(** * The PubSub hotfix, safe_get and _fmt_age *)

(** X16: for a topic string starting with "meshtastic.", listeners get an
    [iface] argument whenever the publisher passed [iface] or [interface]
    (an [iface] passed explicitly wins), [interface] is left only when
    [iface] was passed too, every other argument is passed on unchanged;
    any other topic is passed on untouched. *)
Theorem X16_pubsub_iface_remap {V} (t : pystr) (topic : option pystr) (msgData : gmap pystr V) :
  (starts_with (lit "meshtastic.") t = true ->
   let r := snd (_sendMessage_compat (Some t) msgData) in
   r !! lit "iface" = (match msgData !! lit "iface" with
                       | Some v => Some v
                       | None => msgData !! lit "interface" end) /\
   r !! lit "interface" = (match msgData !! lit "iface" with
                           | Some _ => msgData !! lit "interface"
                           | None => None end) /\
   (forall k, k <> lit "iface" -> k <> lit "interface" -> r !! k = msgData !! k)) /\
  ((forall t', topic = Some t' -> starts_with (lit "meshtastic.") t' = false) ->
   _sendMessage_compat topic msgData = (topic, msgData)).
Proof.
  split.
  - intros Ht r. subst r. unfold _sendMessage_compat. rewrite Ht.
    assert (Hne : lit "iface" <> lit "interface") by (vm_compute; congruence).
    destruct (msgData !! lit "interface") as [v|] eqn:Ei,
             (msgData !! lit "iface") as [w|] eqn:Ef; simpl.
    + by rewrite Ei, Ef.
    + rewrite lookup_insert_eq, lookup_insert_ne by congruence.
      rewrite lookup_delete_eq. split; [done|split; [done|]].
      intros k Hk1 Hk2. rewrite lookup_insert_ne by congruence.
      by rewrite lookup_delete_ne by congruence.
    + by rewrite Ei, Ef.
    + rewrite Ei, Ef. done.
  - intros Hno. unfold _sendMessage_compat.
    destruct topic as [t'|]; [|done]. by rewrite (Hno t' eq_refl).
Qed.

(** X17: [safe_get] composes along a path: looking up [p ++ q] (with [q]
    not empty) is looking up [q] in the result of looking up [p] with the
    default None; a missing key or a non-dict anywhere on the way gives the
    default. *)
Theorem X17_safe_get_compose (d : jv) (p q : list pystr) (default : jv) :
  q <> [] ->
  safe_get d (p ++ q) default = safe_get (safe_get d p (JVal VNone)) q default.
Proof.
  intros Hq. destruct q as [|x q]; [done|]. clear Hq.
  revert d. induction p as [|y p IH]; intros d; [done|].
  simpl. destruct d as [entries|v]; [|done].
  destruct (dict_get entries y) as [cur|]; [apply IH|done].
Qed.

Lemma X17_safe_get_compose_witness :
  let pkt := JDict [(lit "decoded", JDict [(lit "channel", JVal (VInt 1))]);
                    (lit "rx", JVal (VInt 5))] in
  safe_get pkt ([lit "rx"] ++ [lit "channel"]) (JVal VNone) =
    safe_get (safe_get pkt [lit "rx"] (JVal VNone)) [lit "channel"] (JVal VNone).
Proof. cbv zeta. apply X17_safe_get_compose. discriminate. Defined.

Lemma dur_unit_then (x mult u t : Z) (rest : pystr) :
  0 <= x -> (forall t, dur_step (t, x) u = (t + x * mult, 0)) ->
  fold_left dur_step (py_int_str x ++ u :: rest) (t, 0) = fold_left dur_step rest (t + x * mult, 0).
Proof. intros Hx Hu. rewrite fold_left_app, fold_dur_int by done. cbn [fold_left]. by rewrite Hu. Qed.

(** X18: the age shown by [!seen] is truncated, never rounded up: the
    fractional seconds are dropped by [int], and then under a minute it
    shows the whole seconds, under a day whole minutes, from a day on whole
    hours. *)
Theorem X18_fmt_age_truncates (seconds : Q) :
  0 <= Qnum seconds ->
  parse_duration (_fmt_age seconds) =
    (let s := float_int seconds in
     if s <? 60 then s else if s <? 86400 then s / 60 * 60 else s / 3600 * 3600).
Proof.
  intros Hq. assert (Hs : 0 <= float_int seconds) by (unfold float_int; apply Z.quot_pos; lia).
  unfold parse_duration, _fmt_age.
  revert Hs. generalize (float_int seconds) as s. clear seconds Hq. intros s Hs. cbv zeta.
  assert (Hpos : forall a b, 0 < b -> 0 <= a -> 0 <= a / b) by (intros; apply Z.div_pos; lia).
  destruct (Z.ltb_spec s 60) as [H60|H60].
  - change (lit "s") with [115]. rewrite (dur_unit_then _ 1) by (done || (intros; simpl; f_equal; lia)).
    simpl. lia.
  - destruct (Z.ltb_spec (s / 60) 60) as [Hm|Hm].
    + change (lit "m") with [109].
      rewrite (dur_unit_then _ 60) by (auto with zarith || (intros; simpl; f_equal; lia)).
      destruct (Z.ltb_spec s 86400); [simpl; lia|].
      exfalso. assert (1440 <= s / 60) by (apply Z.div_le_lower_bound; lia). lia.
    + assert (Hdiv : s / 60 / 60 = s / 3600) by (rewrite Z.div_div by lia; done).
      rewrite Hdiv.
      destruct (Z.ltb_spec (s / 3600) 24) as [Hh|Hh].
      * change (lit "h ") with [104; 32]. change (lit "m") with [109]. cbn [app].
        rewrite (dur_unit_then _ 3600) by ((apply Hpos; lia) || (intros; simpl; f_equal; lia)).
        simpl fold_left at 1.
        rewrite (dur_unit_then _ 60) by ((apply Z.mod_pos_bound; lia) || (intros; simpl; f_equal; lia)).
        simpl.
        destruct (Z.ltb_spec s 86400) as [Hd|Hd].
        -- pose proof (Z.div_mod (s / 60) 60 ltac:(lia)). rewrite Hdiv in H. lia.
        -- exfalso. assert (24 <= s / 3600) by (apply Z.div_le_lower_bound; lia). lia.
      * change (lit "d ") with [100; 32]. change (lit "h") with [104]. cbn [app].
        rewrite (dur_unit_then _ 86400) by ((apply Hpos; [lia|apply Hpos; lia]) || (intros; simpl; f_equal; lia)).
        simpl fold_left at 1.
        rewrite (dur_unit_then _ 3600) by ((apply Z.mod_pos_bound; lia) || (intros; simpl; f_equal; lia)).
        simpl.
        destruct (Z.ltb_spec s 86400) as [Hd|Hd].
        -- exfalso. assert (s / 3600 < 24) by (apply Z.div_lt_upper_bound; lia). lia.
        -- pose proof (Z.div_mod (s / 3600) 24 ltac:(lia)). lia.
Qed.

Lemma X18_fmt_age_truncates_witness :
  float_int (599 # 10) = 59 /\
  parse_duration (_fmt_age (599 # 10)) =
    (let s := float_int (599 # 10) in
     if s <? 60 then s else if s <? 86400 then s / 60 * 60 else s / 3600 * 3600).
Proof.
  split; [reflexivity|].
  apply (X18_fmt_age_truncates (599 # 10)). simpl. lia.
Defined.
